(** * GraceNote: the freehand drawing surface ([src/components/Canvas.tsx])

    A shallow embedding of the [Canvas] React component: its [useState] and
    [useRef] cells, the DOM canvas it draws on, the calls it makes to its
    [onSave] prop, and its event handlers [startDrawing], [draw],
    [stopDrawing], [getCoordinates] and [clearCanvas], followed by the
    properties of the drawing core.

    JavaScript numbers are IEEE 754 doubles and are embedded as Rocq's
    primitive [float]; strings are [string]. *)

From Stdlib Require Import Bool ZArith List String Floats.
From Stdlib Require Import Lia Permutation Sorted.
Import ListNotations.

Local Open Scope string_scope.
Local Open Scope list_scope.

(** ** JavaScript values *)

Module JS.

Definition number := float.

(** [ToBoolean] on a number: [+0], [-0] and [NaN] are falsy. *)
Definition truthy (n : number) : bool :=
  negb (PrimFloat.is_zero n || PrimFloat.is_nan n).

(** [a || b] on numbers. *)
Definition or (a b : number) : number := if truthy a then a else b.

(** [ToBoolean] on a string: only [''] is falsy. *)
Definition truthy_str (s : string) : bool :=
  match s with
  | EmptyString => false
  | String _ _ => true
  end.

(** The number denoting a non-negative integer (exact below 2^53). *)
Definition of_Z (n : Z) : number := PrimFloat.of_uint63 (Uint63.of_Z n).

(** The integer part of a number, rounding towards zero; [NaN] and the
    infinities give 0 (the first steps of WebIDL's conversion to an
    integer type). *)
Definition truncate (n : number) : Z :=
  match Prim2SF n with
  | S754_finite sign m e =>
      let a := Z.shiftl (Z.pos m) e in
      if sign then (- a)%Z else a
  | _ => 0%Z
  end.

(** WebIDL conversion of a number to [unsigned long]. *)
Definition to_unsigned_long (n : number) : Z := (truncate n mod 2 ^ 32)%Z.

Inductive Error := TypeError (msg : string).

End JS.

(** ** The DOM objects the component touches *)

Record DOMRect := { left : JS.number; top : JS.number }.

(** A point of a path, in the coordinate space of the context. *)
Record Point := { x : JS.number; y : JS.number }.

(** The drawing state of a [CanvasRenderingContext2D]: the current path is a
    list of subpaths, newest first, each a list of points, newest first; the
    transform is kept as its two scale factors, scaling being all the
    component does to it. *)
Record Context2D := {
  strokeStyle : string;
  ctx_lineWidth : JS.number;
  lineCap : string;
  lineJoin : string;
  transform : JS.number * JS.number;
  path : list (list Point)
}.

(** What a context paints into the bitmap of its canvas.  The bitmap is kept
    as the sequence of paint operations applied to a transparent bitmap since
    the canvas was last reset, oldest first: two canvases with the same
    dimensions and the same sequence have the same pixels, and the empty
    sequence is the transparent bitmap. *)
Inductive PaintOp :=
| Stroke (subpaths : list (list Point)) (style : string) (width : JS.number)
         (cap join : string) (scale : JS.number * JS.number)
| ClearRect (rx ry rw rh : JS.number) (scale : JS.number * JS.number)
| DrawImage (src : string) (dx dy dw dh : JS.number)
            (scale : JS.number * JS.number).

Record HTMLCanvasElement := {
  width : Z;
  height : Z;
  boundingClientRect : DOMRect;
  context2d : option Context2D;
  bitmap : list PaintOp
}.

Record HTMLDivElement := { clientWidth : JS.number; clientHeight : JS.number }.

(** [React.MouseEvent | React.TouchEvent], as far as the handlers read it. *)
Record Touch := { touch_clientX : JS.number; touch_clientY : JS.number }.

Inductive PointerInput :=
| Mouse (clientX clientY : JS.number)
| Touches (touches : list Touch).

(** ** Component state *)

Record CanvasProps := { initialImage : option string; readOnly : bool }.

(** The hooks of one [Canvas] instance, the window property it reads, the
    sources of the images it is waiting for, and the calls it has made to
    [onSave] (oldest first). *)
Record Component := {
  isDrawing : bool;
  color : string;
  lineWidth : JS.number;
  isEraser : bool;
  canvasRef : option HTMLCanvasElement;
  containerRef : option HTMLDivElement;
  devicePixelRatio : JS.number;
  pendingImages : list string;
  onSave : list string
}.

(** ** Handlers run in a state monad with JavaScript exceptions

    A state update made before an exception is thrown is kept (React applies
    the queued [setState] although the handler threw). No handler reads a
    state cell after writing it, so applying the update at once is what the
    next event sees. *)

Inductive Completion (A : Type) :=
| Normal (a : A)
| Throw (e : JS.Error).
Arguments Normal {A} a.
Arguments Throw {A} e.

Definition M (A : Type) := Component -> Completion A * Component.

Definition ret {A} (a : A) : M A := fun s => (Normal a, s).

Definition bind {A B} (m : M A) (f : A -> M B) : M B :=
  fun s =>
    match m s with
    | (Normal a, s') => f a s'
    | (Throw e, s') => (Throw e, s')
    end.

Definition throw {A} (e : JS.Error) : M A := fun s => (Throw e, s).
Definition get : M Component := fun s => (Normal s, s).
Definition modify (f : Component -> Component) : M unit :=
  fun s => (Normal tt, f s).

Notation "x <- m ;; k" := (bind m (fun x => k))
  (at level 61, m at next level, right associativity).
Notation "m ;; k" := (bind m (fun _ => k))
  (at level 61, right associativity).

(** *** State setters *)

Definition setIsDrawing (b : bool) : M unit :=
  modify (fun s =>
    {| isDrawing := b; color := color s; lineWidth := lineWidth s;
       isEraser := isEraser s; canvasRef := canvasRef s;
       containerRef := containerRef s;
       devicePixelRatio := devicePixelRatio s;
       pendingImages := pendingImages s; onSave := onSave s |}).

Definition setColor (c : string) : M unit :=
  modify (fun s =>
    {| isDrawing := isDrawing s; color := c; lineWidth := lineWidth s;
       isEraser := isEraser s; canvasRef := canvasRef s;
       containerRef := containerRef s;
       devicePixelRatio := devicePixelRatio s;
       pendingImages := pendingImages s; onSave := onSave s |}).

Definition setIsEraser (b : bool) : M unit :=
  modify (fun s =>
    {| isDrawing := isDrawing s; color := color s; lineWidth := lineWidth s;
       isEraser := b; canvasRef := canvasRef s;
       containerRef := containerRef s;
       devicePixelRatio := devicePixelRatio s;
       pendingImages := pendingImages s; onSave := onSave s |}).

Definition setCanvas (c : HTMLCanvasElement) : M unit :=
  modify (fun s =>
    {| isDrawing := isDrawing s; color := color s; lineWidth := lineWidth s;
       isEraser := isEraser s; canvasRef := Some c;
       containerRef := containerRef s;
       devicePixelRatio := devicePixelRatio s;
       pendingImages := pendingImages s; onSave := onSave s |}).

Definition setPendingImages (p : list string) : M unit :=
  modify (fun s =>
    {| isDrawing := isDrawing s; color := color s; lineWidth := lineWidth s;
       isEraser := isEraser s; canvasRef := canvasRef s;
       containerRef := containerRef s;
       devicePixelRatio := devicePixelRatio s;
       pendingImages := p; onSave := onSave s |}).

(** The call [onSave(dataUrl)]. *)
Definition callOnSave (dataUrl : string) : M unit :=
  modify (fun s =>
    {| isDrawing := isDrawing s; color := color s; lineWidth := lineWidth s;
       isEraser := isEraser s; canvasRef := canvasRef s;
       containerRef := containerRef s;
       devicePixelRatio := devicePixelRatio s;
       pendingImages := pendingImages s; onSave := onSave s ++ [dataUrl] |}).

(** ** [getCoordinates]

    [e.touches[0]] is [undefined] when the touch list is empty, and reading
    [clientX] from it throws. *)
Definition getCoordinates (e : PointerInput) (canvas : HTMLCanvasElement)
  : M Point :=
  let rect := boundingClientRect canvas in
  match e with
  | Touches ts =>
      match ts with
      | t :: _ =>
          ret {| x := (touch_clientX t - left rect)%float;
                 y := (touch_clientY t - top rect)%float |}
      | [] =>
          throw (JS.TypeError
                   "Cannot read properties of undefined (reading 'clientX')")
      end
  | Mouse clientX clientY =>
      ret {| x := (clientX - left rect)%float;
             y := (clientY - top rect)%float |}
  end.

(** ** The canvas API used by the component *)

Module CanvasAPI.

Definition finite2 (a b : JS.number) : bool :=
  PrimFloat.is_finite a && PrimFloat.is_finite b.

Definition withContext (f : Context2D -> Context2D) (c : HTMLCanvasElement)
  : HTMLCanvasElement :=
  {| width := width c; height := height c;
     boundingClientRect := boundingClientRect c;
     context2d := option_map f (context2d c);
     bitmap := bitmap c |}.

Definition paint (op : PaintOp) (c : HTMLCanvasElement) : HTMLCanvasElement :=
  {| width := width c; height := height c;
     boundingClientRect := boundingClientRect c;
     context2d := context2d c;
     bitmap := bitmap c ++ [op] |}.

(** The state of a context that was just created or reset. *)
Definition defaultContext : Context2D :=
  {| strokeStyle := "#000000"; ctx_lineWidth := 1%float;
     lineCap := "butt"; lineJoin := "miter";
     transform := (1%float, 1%float); path := [] |}.

(** [canvas.getContext('2d')]: the context, or [null]. *)
Definition getContext (c : HTMLCanvasElement) : option Context2D :=
  context2d c.

(** [ctx.beginPath()]. *)
Definition beginPath : HTMLCanvasElement -> HTMLCanvasElement :=
  withContext (fun ctx =>
    {| strokeStyle := strokeStyle ctx; ctx_lineWidth := ctx_lineWidth ctx;
       lineCap := lineCap ctx; lineJoin := lineJoin ctx;
       transform := transform ctx; path := [] |}).

(** [ctx.moveTo(x, y)]: a new subpath; ignored for non-finite arguments. *)
Definition moveTo (px py : JS.number)
  : HTMLCanvasElement -> HTMLCanvasElement :=
  withContext (fun ctx =>
    if finite2 px py then
      {| strokeStyle := strokeStyle ctx; ctx_lineWidth := ctx_lineWidth ctx;
         lineCap := lineCap ctx; lineJoin := lineJoin ctx;
         transform := transform ctx;
         path := [ {| x := px; y := py |} ] :: path ctx |}
    else ctx).

(** [ctx.lineTo(x, y)]: extends the newest subpath (or starts one when the
    path is empty); ignored for non-finite arguments. *)
Definition lineTo (px py : JS.number)
  : HTMLCanvasElement -> HTMLCanvasElement :=
  withContext (fun ctx =>
    if finite2 px py then
      {| strokeStyle := strokeStyle ctx; ctx_lineWidth := ctx_lineWidth ctx;
         lineCap := lineCap ctx; lineJoin := lineJoin ctx;
         transform := transform ctx;
         path :=
           match path ctx with
           | [] => [ [ {| x := px; y := py |} ] ]
           | sub :: rest => ({| x := px; y := py |} :: sub) :: rest
           end |}
    else ctx).

(** [ctx.strokeStyle = v], for [v] a CSS colour in the six-digit lower-case
    hexadecimal form, which is all the component ever assigns. *)
Definition set_strokeStyle (v : string)
  : HTMLCanvasElement -> HTMLCanvasElement :=
  withContext (fun ctx =>
    {| strokeStyle := v; ctx_lineWidth := ctx_lineWidth ctx;
       lineCap := lineCap ctx; lineJoin := lineJoin ctx;
       transform := transform ctx; path := path ctx |}).

(** [ctx.lineWidth = v]: zero, negative, infinite and NaN values are
    ignored. *)
Definition set_lineWidth (v : JS.number)
  : HTMLCanvasElement -> HTMLCanvasElement :=
  withContext (fun ctx =>
    if PrimFloat.is_finite v && (0 <? v)%float then
      {| strokeStyle := strokeStyle ctx; ctx_lineWidth := v;
         lineCap := lineCap ctx; lineJoin := lineJoin ctx;
         transform := transform ctx; path := path ctx |}
    else ctx).

(** [ctx.lineCap = 'round'] and [ctx.lineJoin = 'round']. *)
Definition set_lineCap (v : string)
  : HTMLCanvasElement -> HTMLCanvasElement :=
  withContext (fun ctx =>
    {| strokeStyle := strokeStyle ctx; ctx_lineWidth := ctx_lineWidth ctx;
       lineCap := v; lineJoin := lineJoin ctx;
       transform := transform ctx; path := path ctx |}).

Definition set_lineJoin (v : string)
  : HTMLCanvasElement -> HTMLCanvasElement :=
  withContext (fun ctx =>
    {| strokeStyle := strokeStyle ctx; ctx_lineWidth := ctx_lineWidth ctx;
       lineCap := lineCap ctx; lineJoin := v;
       transform := transform ctx; path := path ctx |}).

(** [ctx.scale(sx, sy)]; ignored for non-finite arguments. *)
Definition scale (sx sy : JS.number)
  : HTMLCanvasElement -> HTMLCanvasElement :=
  withContext (fun ctx =>
    if finite2 sx sy then
      {| strokeStyle := strokeStyle ctx; ctx_lineWidth := ctx_lineWidth ctx;
         lineCap := lineCap ctx; lineJoin := lineJoin ctx;
         transform := ((fst (transform ctx) * sx)%float,
                       (snd (transform ctx) * sy)%float);
         path := path ctx |}
    else ctx).

(** [ctx.stroke()]: rasterises the current path with the current style. *)
Definition stroke (c : HTMLCanvasElement) : HTMLCanvasElement :=
  match context2d c with
  | Some ctx =>
      paint (Stroke (path ctx) (strokeStyle ctx) (ctx_lineWidth ctx)
                    (lineCap ctx) (lineJoin ctx) (transform ctx)) c
  | None => c
  end.

(** [ctx.clearRect(x, y, w, h)]; ignored for non-finite arguments. *)
Definition clearRect (rx ry rw rh : JS.number) (c : HTMLCanvasElement)
  : HTMLCanvasElement :=
  match context2d c with
  | Some ctx =>
      if finite2 rx ry && finite2 rw rh
      then paint (ClearRect rx ry rw rh (transform ctx)) c
      else c
  | None => c
  end.

(** [ctx.drawImage(img, dx, dy, dw, dh)]. *)
Definition drawImage (src : string) (dx dy dw dh : JS.number)
                     (c : HTMLCanvasElement) : HTMLCanvasElement :=
  match context2d c with
  | Some ctx =>
      if finite2 dx dy && finite2 dw dh
      then paint (DrawImage src dx dy dw dh (transform ctx)) c
      else c
  | None => c
  end.

(** The value a reflected [unsigned long] attribute takes when a number is
    assigned to it: out of the range 0 .. 2147483647 the default is used. *)
Definition reflected_dimension (default : Z) (v : JS.number) : Z :=
  let n := JS.to_unsigned_long v in
  if (n <=? 2147483647)%Z then n else default.

(** [canvas.width = v] and [canvas.height = v]: the bitmap becomes transparent
    at the new size and the context, if any, is reset to its default
    state. *)
Definition set_width (v : JS.number) (c : HTMLCanvasElement)
  : HTMLCanvasElement :=
  {| width := reflected_dimension 300 v; height := height c;
     boundingClientRect := boundingClientRect c;
     context2d := option_map (fun _ => defaultContext) (context2d c);
     bitmap := [] |}.

Definition set_height (v : JS.number) (c : HTMLCanvasElement)
  : HTMLCanvasElement :=
  {| width := width c; height := reflected_dimension 150 v;
     boundingClientRect := boundingClientRect c;
     context2d := option_map (fun _ => defaultContext) (context2d c);
     bitmap := [] |}.

(** A paint operation that can turn a transparent pixel into a visible one:
    a stroke with at least one segment, or a drawn image. *)
Definition inks (op : PaintOp) : bool :=
  match op with
  | Stroke subpaths _ _ _ _ _ =>
      existsb (fun sub => (2 <=? List.length sub)%nat) subpaths
  | ClearRect _ _ _ _ _ => false
  | DrawImage _ _ _ _ _ _ => true
  end.

(** No operation applied to the bitmap so far could have inked it: every
    pixel is still transparent. *)
Definition blank (c : HTMLCanvasElement) : bool :=
  forallb (fun op => negb (inks op)) (bitmap c).

End CanvasAPI.

(** ** The snapshot codec: [canvas.toDataURL('image/png')]

    The raster image that is serialised is the bitmap of the canvas at the
    dimensions of the canvas; no scaling is applied.  A canvas with no pixels
    gives ["data:,"].  The only images the component draws are snapshots of
    its own, data URLs that leave the canvas origin-clean, so the call does
    not throw. *)
Record RasterImage := {
  img_width : Z;
  img_height : Z;
  img_pixels : list PaintOp
}.

Definition canvasImage (c : HTMLCanvasElement) : RasterImage :=
  {| img_width := width c; img_height := height c; img_pixels := bitmap c |}.

Section Handlers.

(** The browser's PNG encoder followed by base64. *)
Variable png_base64 : RasterImage -> string.

Definition toDataURL (c : HTMLCanvasElement) : string :=
  if ((width c =? 0) || (height c =? 0))%Z then "data:,"
  else "data:image/png;base64," ++ png_base64 (canvasImage c).

Variable props : CanvasProps.

(** *** The mount effect: [useEffect(..., [initialImage])] *)
Definition mountEffect : M unit :=
  s <- get ;;
  match canvasRef s, containerRef s with
  | Some canvas, Some container =>
      let dpr := JS.or (devicePixelRatio s) 1%float in
      let canvas :=
        CanvasAPI.set_width (clientWidth container * dpr)%float canvas in
      let canvas :=
        CanvasAPI.set_height (clientHeight container * dpr)%float canvas in
      match CanvasAPI.getContext canvas with
      | Some _ =>
          let canvas := CanvasAPI.scale dpr dpr canvas in
          let canvas := CanvasAPI.set_lineCap "round" canvas in
          let canvas := CanvasAPI.set_lineJoin "round" canvas in
          setCanvas canvas ;;
          match initialImage props with
          | Some src =>
              if JS.truthy_str src
              then setPendingImages (pendingImages s ++ [src])
              else ret tt
          | None => ret tt
          end
      | None => setCanvas canvas
      end
  | _, _ => ret tt
  end.

(** [img.onload] of the [n]-th image the mount effect is waiting for: the
    image is drawn over the logical size of the container. *)
Definition imgOnload (n : nat) : M unit :=
  s <- get ;;
  match nth_error (pendingImages s) n, canvasRef s, containerRef s with
  | Some src, Some canvas, Some container =>
      setCanvas
        (CanvasAPI.drawImage src 0%float 0%float
           (clientWidth container) (clientHeight container) canvas) ;;
      setPendingImages (firstn n (pendingImages s)
                        ++ skipn (S n) (pendingImages s))
  | _, _, _ => ret tt
  end.

(** *** [startDrawing] *)
Definition startDrawing (e : PointerInput) : M unit :=
  if readOnly props then ret tt else
  s <- get ;;
  match canvasRef s with
  | None => ret tt
  | Some canvas =>
      match CanvasAPI.getContext canvas with
      | None => ret tt
      | Some _ =>
          setIsDrawing true ;;
          p <- getCoordinates e canvas ;;
          let canvas := CanvasAPI.beginPath canvas in
          let canvas := CanvasAPI.moveTo (x p) (y p) canvas in
          let canvas :=
            CanvasAPI.set_strokeStyle
              (if isEraser s then "#ffffff" else color s) canvas in
          let canvas :=
            CanvasAPI.set_lineWidth
              (if isEraser s then 20%float else lineWidth s) canvas in
          setCanvas canvas
      end
  end.

(** *** [draw] *)
Definition draw (e : PointerInput) : M unit :=
  s <- get ;;
  if negb (isDrawing s) || readOnly props then ret tt else
  match canvasRef s with
  | None => ret tt
  | Some canvas =>
      match CanvasAPI.getContext canvas with
      | None => ret tt
      | Some _ =>
          p <- getCoordinates e canvas ;;
          let canvas := CanvasAPI.lineTo (x p) (y p) canvas in
          let canvas := CanvasAPI.stroke canvas in
          setCanvas canvas
      end
  end.

(** *** [stopDrawing] *)
Definition stopDrawing : M unit :=
  if readOnly props then ret tt else
  setIsDrawing false ;;
  s <- get ;;
  match canvasRef s with
  | Some canvas => callOnSave (toDataURL canvas)
  | None => ret tt
  end.

(** *** [clearCanvas] *)
Definition clearCanvas : M unit :=
  s <- get ;;
  match canvasRef s with
  | None => ret tt
  | Some canvas =>
      match CanvasAPI.getContext canvas with
      | None => ret tt
      | Some _ =>
          let dpr := JS.or (devicePixelRatio s) 1%float in
          let canvas :=
            CanvasAPI.clearRect 0%float 0%float
              (JS.of_Z (width canvas) / dpr)%float
              (JS.of_Z (height canvas) / dpr)%float
              canvas in
          setCanvas canvas ;;
          callOnSave ""
      end
  end.

End Handlers.

(** ** Events and the component as a transition system *)

(** The three colour buttons of the toolbar. *)
Inductive Swatch := Indigo950 | Red600 | Blue600.

Definition hex (sw : Swatch) : string :=
  match sw with
  | Indigo950 => "#1e1b4b"
  | Red600 => "#dc2626"
  | Blue600 => "#2563eb"
  end.

(** What the component reacts to: the seven bindings of the [<canvas>]
    element, the buttons of the toolbar, a run of the mount effect and the
    load of the initial image. *)
Inductive Event :=
| MouseDown (clientX clientY : JS.number)
| MouseMove (clientX clientY : JS.number)
| MouseUp
| MouseLeave
| TouchStart (touches : list Touch)
| TouchMove (touches : list Touch)
| TouchEnd
| ClickPencil
| ClickSwatch (sw : Swatch)
| ClickEraser
| ClickClear
| EffectRun
| ImageLoad (n : nat).

Section Dispatch.

Variable png_base64 : RasterImage -> string.
Variable props : CanvasProps.

(** The toolbar is rendered only when [readOnly] is false. *)
Definition toolbar (handler : M unit) : M unit :=
  if readOnly props then ret tt else handler.

Definition dispatch (ev : Event) : M unit :=
  match ev with
  | MouseDown cx cy => startDrawing props (Mouse cx cy)
  | MouseMove cx cy => draw props (Mouse cx cy)
  | MouseUp => stopDrawing png_base64 props
  | MouseLeave => stopDrawing png_base64 props
  | TouchStart ts => startDrawing props (Touches ts)
  | TouchMove ts => draw props (Touches ts)
  | TouchEnd => stopDrawing png_base64 props
  | ClickPencil => toolbar (setIsEraser false)
  | ClickSwatch sw => toolbar (setColor (hex sw) ;; setIsEraser false)
  | ClickEraser => toolbar (setIsEraser true)
  | ClickClear => toolbar clearCanvas
  | EffectRun => mountEffect props
  | ImageLoad n => imgOnload n
  end.

(** The state after an event; an exception thrown by the handler is
    reported by the browser and the component lives on. *)
Definition step (s : Component) (ev : Event) : Component :=
  snd (dispatch ev s).

Definition raises (s : Component) (ev : Event) : bool :=
  match fst (dispatch ev s) with
  | Normal _ => false
  | Throw _ => true
  end.

Definition run (evs : list Event) (s : Component) : Component :=
  fold_left step evs s.

End Dispatch.

(** Classification of the pointer events of a gesture. *)
Definition is_down (ev : Event) : bool :=
  match ev with MouseDown _ _ | TouchStart _ => true | _ => false end.

Definition is_move (ev : Event) : bool :=
  match ev with MouseMove _ _ | TouchMove _ => true | _ => false end.

Definition is_up (ev : Event) : bool :=
  match ev with MouseUp | TouchEnd => true | _ => false end.

Definition is_pointer (ev : Event) : bool :=
  is_down ev || is_move ev || is_up ev
  || match ev with MouseLeave => true | _ => false end.

(** A freshly created [<canvas>] element: 300 by 150, transparent. *)
Definition newCanvas (rect : DOMRect) (has2d : bool) : HTMLCanvasElement :=
  {| width := 300; height := 150; boundingClientRect := rect;
     context2d := if has2d then Some CanvasAPI.defaultContext else None;
     bitmap := [] |}.

(** The component after its first render, before the mount effect ran. *)
Definition firstRender (canvas : option HTMLCanvasElement)
                       (container : option HTMLDivElement)
                       (dpr : JS.number) : Component :=
  {| isDrawing := false; color := "#1e1b4b"; lineWidth := 3%float;
     isEraser := false; canvasRef := canvas; containerRef := container;
     devicePixelRatio := dpr; pendingImages := []; onSave := [] |}.

(** The session state of the spec: [IDLE] and [DRAWING]. *)
Inductive Session := IDLE | DRAWING.

Definition session (s : Component) : Session :=
  if isDrawing s then DRAWING else IDLE.

(** The strings passed to [onSave] between two states. *)
Definition emitted (before after : Component) (calls : list string) : Prop :=
  onSave after = onSave before ++ calls.

(** The paint operations applied to the mounted canvas between two states. *)
Definition painted (before after : HTMLCanvasElement) (ops : list PaintOp)
  : Prop :=
  bitmap after = bitmap before ++ ops.

(** Sample values: an element at screen (50, 80), a 100 by 50 container, an
    encoder that answers the eight signature bytes of a PNG file for every
    image, and the two settings of [readOnly]. *)
Definition sampleRect : DOMRect := {| left := 50%float; top := 80%float |}.
Definition sampleContainer : HTMLDivElement :=
  {| clientWidth := 100%float; clientHeight := 50%float |}.
Definition samplePng (img : RasterImage) : string := "iVBORw0KGgo=".
Definition editable : CanvasProps :=
  {| initialImage := None; readOnly := false |}.
Definition viewOnly : CanvasProps :=
  {| initialImage := None; readOnly := true |}.

(** The component mounted on a 100 by 50 container at a given density. *)
Definition mounted (has2d : bool) (dpr : JS.number) : Component :=
  step samplePng editable
       (firstRender (Some (newCanvas sampleRect has2d))
                    (Some sampleContainer) dpr)
       EffectRun.

(** A touch event dispatched by a browser lists at least one touch point in
    [touches] when it is a touchstart or a touchmove. *)
Definition well_formed (ev : Event) : bool :=
  match ev with
  | TouchStart [] | TouchMove [] => false
  | _ => true
  end.

(** A paint operation that rasterises a path in a given colour and width. *)
Definition rendered_with (col : string) (w : JS.number) (op : PaintOp) : Prop :=
  exists subpaths cap join tr, op = Stroke subpaths col w cap join tr.

(** The stroke colour and width a canvas context is set to. *)
Definition styled (col : string) (w : JS.number) (c : HTMLCanvasElement)
  : Prop :=
  exists ctx,
    context2d c = Some ctx /\ strokeStyle ctx = col /\ ctx_lineWidth ctx = w.

(** A width the [lineWidth] setter of a context accepts. *)
Definition valid_width (w : JS.number) : bool :=
  PrimFloat.is_finite w && (0 <? w)%float.

(** The tool a down event picks: the eraser, white at 20, or the pen. *)
Definition tool_color (s : Component) : string :=
  if isEraser s then "#ffffff" else color s.

Definition tool_width (s : Component) : JS.number :=
  if isEraser s then 20%float else lineWidth s.

(** The render target is unavailable: no canvas is mounted, or its 2D
    context cannot be obtained. *)
Definition unavailable (s : Component) : bool :=
  match canvasRef s with
  | None => true
  | Some canvas =>
      match CanvasAPI.getContext canvas with
      | None => true
      | Some _ => false
      end
  end.

(** The pixel dimensions of the image a snapshot of the mounted canvas
    encodes. *)
Definition snapshotDimensions (s : Component) : option (Z * Z) :=
  option_map (fun c => (img_width (canvasImage c), img_height (canvasImage c)))
             (canvasRef s).

(** The bitmap dimensions the mount effect gives the canvas of a container at
    a device pixel ratio. *)
Definition physicalDimensions (container : HTMLDivElement) (ratio : JS.number)
  : Z * Z :=
  let dpr := JS.or ratio 1%float in
  (CanvasAPI.reflected_dimension 300 (clientWidth container * dpr)%float,
   CanvasAPI.reflected_dimension 150 (clientHeight container * dpr)%float).

(** The mounted canvas, when there is one, is blank. *)
Definition surfaceBlank (s : Component) : bool :=
  match canvasRef s with
  | Some c => CanvasAPI.blank c
  | None => false
  end.

(** The canvas of the mounted sample component. *)
Definition mountedCanvas (has2d : bool) (dpr : JS.number) : HTMLCanvasElement :=
  match canvasRef (mounted has2d dpr) with
  | Some c => c
  | None => newCanvas sampleRect has2d
  end.

Definition sampleTouch : Touch :=
  {| touch_clientX := 120%float; touch_clientY := 130%float |}.

(** A mouse stroke of two moves, and the sample component after the red
    button and then the eraser button were pressed. *)
Definition sampleDown : Event := MouseDown 120%float 130%float.
Definition sampleMoves : list Event :=
  [MouseMove 121%float 131%float; MouseMove 125%float 140%float].
Definition redThenEraser : list Event :=
  [EffectRun; ClickSwatch Red600; ClickEraser].
Definition erasing : Component :=
  run samplePng editable redThenEraser
      (firstRender (Some (newCanvas sampleRect true))
                   (Some sampleContainer) 2%float).

(** ** Vocabulary for the further properties of the component *)

(** The surface-local point [getCoordinates] computes for an input, when
    the input carries one ([getCoordinates] does not read the state it is
    run in). *)
Definition localPoint (e : PointerInput) (canvas : HTMLCanvasElement)
  : option Point :=
  match fst (getCoordinates e canvas
               (firstRender None None 1%float)) with
  | Normal p => Some p
  | Throw _ => None
  end.

(** The input a canvas binding hands to its handler. *)
Definition inputOf (ev : Event) : option PointerInput :=
  match ev with
  | MouseDown cx cy | MouseMove cx cy => Some (Mouse cx cy)
  | TouchStart ts | TouchMove ts => Some (Touches ts)
  | _ => None
  end.

(** The local point of a down or move event, when it is finite. *)
Definition finitePoint (canvas : HTMLCanvasElement) (ev : Event)
  : option Point :=
  match inputOf ev with
  | Some e =>
      match localPoint e canvas with
      | Some p => if CanvasAPI.finite2 (x p) (y p) then Some p else None
      | None => None
      end
  | None => None
  end.

(** The tool buttons of the toolbar, clear apart. *)
Definition is_tool (ev : Event) : bool :=
  match ev with
  | ClickPencil | ClickSwatch _ | ClickEraser => true
  | _ => false
  end.

(** The events whose handler calls [onSave] on an available canvas. *)
Definition is_emitting (ev : Event) : bool :=
  match ev with
  | MouseUp | MouseLeave | TouchEnd | ClickClear => true
  | _ => false
  end.

(** A string [onSave] may receive: the empty sentinel or a data URL. *)
Definition snapshotString (u : string) : bool :=
  String.eqb u "" || String.prefix "data:" u.

Definition is_DrawImage (op : PaintOp) : bool :=
  match op with DrawImage _ _ _ _ _ _ => true | _ => false end.

(** What a handler passes to [onSave], read off the four handlers that call
    it. *)
Definition emission (png_base64 : RasterImage -> string) (props : CanvasProps)
                    (s : Component) (ev : Event) : list string :=
  if readOnly props then [] else
  match ev with
  | MouseUp | MouseLeave | TouchEnd =>
      match canvasRef s with
      | Some canvas => [toDataURL png_base64 canvas]
      | None => []
      end
  | ClickClear => if unavailable s then [] else [""]
  | _ => []
  end.

(** The paint operations the mounted canvas holds. *)
Definition surfaceOps (s : Component) : list PaintOp :=
  match canvasRef s with
  | Some canvas => bitmap canvas
  | None => []
  end.

(** More sample values: the context of the sample canvas after mount, the
    canvas a sample state holds, props with an initial image, a stroke with
    button presses in it, and a run that mixes every kind of event. *)
Definition sampleContext : Context2D :=
  {| strokeStyle := "#000000"; ctx_lineWidth := 1%float;
     lineCap := "round"; lineJoin := "round";
     transform := (2%float, 2%float); path := [] |}.

Definition canvasOf (s : Component) : HTMLCanvasElement :=
  match canvasRef s with
  | Some c => c
  | None => newCanvas sampleRect false
  end.

Definition withImage : CanvasProps :=
  {| initialImage := Some "data:image/png;base64,iVBORw0KGgo=";
     readOnly := false |}.

Definition movesAndButtons : list Event :=
  [MouseMove 121%float 131%float; ClickEraser;
   MouseMove 125%float 140%float; ClickSwatch Red600].

Definition mixedRun : list Event :=
  [sampleDown; MouseMove 121%float 131%float; MouseUp; ClickClear;
   ClickEraser; TouchStart [sampleTouch]; MouseLeave; EffectRun;
   ImageLoad 0].

Definition midStroke : Component :=
  run samplePng editable (sampleDown :: sampleMoves) (mounted true 2%float).

(** ** The editor that hosts the surface ([src/components/Editor.tsx])

    Timestamps are integers (milliseconds, as [Date.now()] gives them) and
    are embedded as [Z].  Fields a stored document may lack are options. *)

Record DevotionalNote := {
  id : string;
  title : option string;
  content : option string;
  drawingData : option string;
  createdAt : Z;
  updatedAt : Z;
  tags : list string;
  mood : option string;
  userId : option string
}.

Inductive EditorMode := WRITE | DRAW.

(** The cells of the editor the handlers below read or write: the note, the
    mode, and the [Canvas] child, which is rendered in [DRAW] mode only. *)
Record Editor := {
  note : DevotionalNote;
  mode : EditorMode;
  surface : option Component
}.

(** [Object.is] on the [initialImage] prop of two renders. *)
Definition sameImage (a b : option string) : bool :=
  match a, b with
  | None, None => true
  | Some u, Some v => String.eqb u v
  | _, _ => false
  end.

(** The [onSave] prop the editor hands to the surface:
    [setNote(prev => ({ ...prev, drawingData: dataUrl, updatedAt: Date.now() }))]. *)
Definition saveDrawing (now : Z) (n : DevotionalNote) (dataUrl : string)
  : DevotionalNote :=
  {| id := id n; title := title n; content := content n;
     drawingData := Some dataUrl; createdAt := createdAt n;
     updatedAt := now; tags := tags n; mood := mood n; userId := userId n |}.

(** The props the editor renders the surface with. *)
Definition surfaceProps (n : DevotionalNote) : CanvasProps :=
  {| initialImage := drawingData n; readOnly := false |}.

Section EditorHost.

Variable png_base64 : RasterImage -> string.

(** An event on the surface inside the editor, at time [now]: the handler of
    the surface runs; every call it makes to [onSave] updates the note; the
    editor renders again, and the mount effect of the surface, which depends
    on [initialImage], runs again when that prop is no longer the same. *)
Definition surfaceEvent (now : Z) (ev : Event) (ed : Editor) : Editor :=
  match mode ed, surface ed, ev with
  | DRAW, Some c, EffectRun => ed
  | DRAW, Some c, _ =>
      let props := surfaceProps (note ed) in
      let c1 := step png_base64 props c ev in
      let calls := skipn (List.length (onSave c)) (onSave c1) in
      let note1 := fold_left (saveDrawing now) calls (note ed) in
      let props1 := surfaceProps note1 in
      let c2 :=
        if sameImage (initialImage props) (initialImage props1) then c1
        else step png_base64 props1 c1 EffectRun in
      {| note := note1; mode := DRAW; surface := Some c2 |}
  | _, _, _ => ed
  end.


End EditorHost.

(** ** The note list of the application (the [App] component)

    [String.prototype.toLowerCase] and the local calendar of [Date] belong to
    the JavaScript engine and are parameters. *)

(** [s.includes(pattern)]. *)
Fixpoint includes (s pattern : string) : bool :=
  String.prefix pattern s
  || match s with
     | EmptyString => false
     | String _ rest => includes rest pattern
     end.

(** [Array.prototype.sort(compare)]: a stable sort; [compare a b <= 0] keeps
    [a] before [b]. *)
Fixpoint sortInsert {A} (compare : A -> A -> Z) (a : A) (sorted : list A)
  : list A :=
  match sorted with
  | [] => [a]
  | b :: rest =>
      if (compare a b <=? 0)%Z then a :: b :: rest
      else b :: sortInsert compare a rest
  end.

Definition Array_sort {A} (compare : A -> A -> Z) (l : list A) : list A :=
  fold_right (sortInsert compare) [] l.

Section NoteList.

Variable toLowerCase : string -> string.
Variable getMonth : Z -> Z.
Variable getFullYear : Z -> Z.

(** [field?.toLowerCase().includes(query.toLowerCase())], falsy when the
    field is missing. *)
Definition fieldMatches (field : option string) (searchQuery : string) : bool :=
  match field with
  | Some text => includes (toLowerCase text) (toLowerCase searchQuery)
  | None => false
  end.

Definition matchesSearch (n : DevotionalNote) (searchQuery : string) : bool :=
  fieldMatches (title n) searchQuery
  || fieldMatches (content n) searchQuery
  || existsb (fun t => includes (toLowerCase t) (toLowerCase searchQuery))
             (tags n).

(** [filterMood ? note.mood === filterMood : true]. *)
Definition matchesMood (n : DevotionalNote) (filterMood : option string)
  : bool :=
  match filterMood with
  | Some m =>
      if JS.truthy_str m then
        match mood n with
        | Some m' => String.eqb m' m
        | None => false
        end
      else true
  | None => true
  end.

(** The comparator [(a, b) => b.createdAt - a.createdAt]. *)
Definition newestFirst (a b : DevotionalNote) : Z :=
  (createdAt b - createdAt a)%Z.

(** [filteredNotes]: the notes that match, newest first. *)
Definition filteredNotes (notes : list DevotionalNote) (searchQuery : string)
                         (filterMood : option string) : list DevotionalNote :=
  Array_sort newestFirst
    (filter (fun n => matchesSearch n searchQuery && matchesMood n filterMood)
            notes).

(** [Math.ceil(diffTime / (1000 * 60 * 60 * 24))] for an integer
    [diffTime]. *)
Definition diffDays (now created : Z) : Z :=
  let diffTime := Z.abs (now - created) in
  (- ((- diffTime) / (1000 * 60 * 60 * 24)))%Z.

(** The three groups, in the order of their keys. *)
Record Groups := {
  estaSemana : list DevotionalNote;
  esteMes : list DevotionalNote;
  antigos : list DevotionalNote
}.

(** [groupedNotes]: each note is pushed on one of the three groups. *)
Definition groupedNotes (now : Z) (filtered : list DevotionalNote) : Groups :=
  fold_left
    (fun groups n =>
       if (diffDays now (createdAt n) <=? 7)%Z then
         {| estaSemana := estaSemana groups ++ [n];
            esteMes := esteMes groups; antigos := antigos groups |}
       else if (getMonth (createdAt n) =? getMonth now)%Z
               && (getFullYear (createdAt n) =? getFullYear now)%Z then
         {| estaSemana := estaSemana groups;
            esteMes := esteMes groups ++ [n]; antigos := antigos groups |}
       else
         {| estaSemana := estaSemana groups; esteMes := esteMes groups;
            antigos := antigos groups ++ [n] |})
    filtered
    {| estaSemana := []; esteMes := []; antigos := [] |}.

(** The two tests of the grouping, as they come out: within seven times 24
    hours of now, and in the calendar month of now. *)
Definition withinWeek (now : Z) (n : DevotionalNote) : bool :=
  (Z.abs (now - createdAt n) <=? 604800000)%Z.

Definition sameMonth (now : Z) (n : DevotionalNote) : bool :=
  (getMonth (createdAt n) =? getMonth now)%Z
  && (getFullYear (createdAt n) =? getFullYear now)%Z.

End NoteList.

(** ** The note list of the first, local version of the application
    ([src/unnamed/part_001]) *)

Inductive ViewMode := LIST | EDITOR.

Record LocalApp := {
  notes : list DevotionalNote;
  viewMode : ViewMode;
  currentNote : option DevotionalNote
}.

(** [handleSaveNote]: replace the notes that have the id of the saved one,
    or put the saved note first. *)
Definition handleSaveNote (updatedNote : DevotionalNote) (app : LocalApp)
  : LocalApp :=
  {| notes :=
       match find (fun n => String.eqb (id n) (id updatedNote)) (notes app)
       with
       | Some _ =>
           map (fun n => if String.eqb (id n) (id updatedNote)
                         then updatedNote else n) (notes app)
       | None => updatedNote :: notes app
       end;
     viewMode := viewMode app;
     currentNote := currentNote app |}.

(** [handleDeleteNote]; [confirmed] is the answer to [confirm(...)]. *)
Definition handleDeleteNote (confirmed : bool) (noteId : string)
                            (app : LocalApp) : LocalApp :=
  if confirmed then
    let kept := filter (fun n => negb (String.eqb (id n) noteId)) (notes app) in
    match currentNote app with
    | Some current =>
        if String.eqb (id current) noteId
        then {| notes := kept; viewMode := LIST; currentNote := None |}
        else {| notes := kept; viewMode := viewMode app;
                currentNote := currentNote app |}
    | None =>
        {| notes := kept; viewMode := viewMode app;
           currentNote := currentNote app |}
    end
  else app.

(** Sample notes and a sample editor in [DRAW] mode, in the middle of the
    sample stroke. *)
Definition sampleNote (noteId : string) (created : Z) : DevotionalNote :=
  {| id := noteId; title := Some ""; content := Some "";
     drawingData := None; createdAt := created; updatedAt := created;
     tags := []; mood := None; userId := None |}.

Definition bareNote : DevotionalNote :=
  {| id := "n0"; title := None; content := None; drawingData := None;
     createdAt := 0; updatedAt := 0; tags := []; mood := None;
     userId := None |}.

Definition sampleEditor : Editor :=
  {| note := sampleNote "n1" 1700000000000; mode := DRAW;
     surface := Some midStroke |}.

Definition sampleApp : LocalApp :=
  {| notes := [sampleNote "n2" 1700000000002; sampleNote "n1" 1700000000000];
     viewMode := LIST; currentNote := None |}.

(** * Properties *)

(** Unfolds a handler down to the state it returns and splits on every test
    it makes. *)
Ltac unfold_handlers :=
  unfold step, raises, dispatch, toolbar, startDrawing, draw, stopDrawing,
    clearCanvas, mountEffect, imgOnload, getCoordinates, setIsDrawing,
    setColor, setIsEraser, setCanvas, setPendingImages, callOnSave, bind, get,
    modify, ret, throw in *.

Ltac split_tests :=
  repeat (cbn in *;
          match goal with
          | |- context [match ?t with _ => _ end] => is_var t; destruct t
          | H : context [match ?t with _ => _ end] |- _ => is_var t; destruct t
          | |- context [match ?t with _ => _ end] => destruct t eqn:?
          | H : context [match ?t with _ => _ end] |- _ => destruct t eqn:?
          | H : (_, _) = (_, _) |- _ => inversion H; subst; clear H
          end);
  cbn in *.

Ltac handler := unfold_handlers; cbn in *; split_tests; try congruence.

(** ** Coordinate Mapper *)

(** C7. For a mouse event, and for a touch event through its first touch
    point, [getCoordinates] returns without raising the pair
    [x = clientX - rect.left], [y = clientY - rect.top] and leaves the state
    alone; with the element at screen (50, 80), an event at screen (120, 130)
    maps to (70, 50), for mouse and touch input alike. *)
Theorem getCoordinates_local :
  (forall cx cy canvas s,
      getCoordinates (Mouse cx cy) canvas s
      = (Normal {| x := (cx - left (boundingClientRect canvas))%float;
                   y := (cy - top (boundingClientRect canvas))%float |}, s))
  /\ (forall t ts canvas s,
      getCoordinates (Touches (t :: ts)) canvas s
      = (Normal {| x := (touch_clientX t
                         - left (boundingClientRect canvas))%float;
                   y := (touch_clientY t
                         - top (boundingClientRect canvas))%float |}, s))
  /\ (forall w h ctx bm ts s,
      let canvas :=
        {| width := w; height := h;
           boundingClientRect := {| left := 50%float; top := 80%float |};
           context2d := ctx; bitmap := bm |} in
      let first :=
        {| touch_clientX := 120%float; touch_clientY := 130%float |} in
      getCoordinates (Mouse 120%float 130%float) canvas s
      = (Normal {| x := 70%float; y := 50%float |}, s)
      /\ getCoordinates (Touches (first :: ts)) canvas s
         = (Normal {| x := 70%float; y := 50%float |}, s)).
Proof.
  repeat split; reflexivity.
Qed.

(** ** Frame lemmas for the pointer handlers *)

Section Frames.

Variable png_base64 : RasterImage -> string.
Variable props : CanvasProps.

Lemma run_cons ev evs s :
  run png_base64 props (ev :: evs) s
  = run png_base64 props evs (step png_base64 props s ev).
Proof. reflexivity. Qed.

Lemma run_snoc evs ev s :
  run png_base64 props (evs ++ [ev]) s
  = step png_base64 props (run png_base64 props evs s) ev.
Proof. unfold run. now rewrite fold_left_app. Qed.

(** No handler ever empties the canvas ref. *)
Lemma step_canvasRef ev s c :
  canvasRef s = Some c ->
  exists c', canvasRef (step png_base64 props s ev) = Some c'.
Proof.
  intros Hc. destruct ev; handler; eauto.
Qed.

Lemma run_canvasRef evs : forall s c,
  canvasRef s = Some c ->
  exists c', canvasRef (run png_base64 props evs s) = Some c'.
Proof.
  induction evs as [|ev evs IH]; intros s c Hc.
  - cbn. eauto.
  - rewrite run_cons.
    destruct (step_canvasRef ev s c Hc) as [c' Hc']. eapply IH; eauto.
Qed.

(** Down and move events call [onSave] never. *)
Lemma step_down_move_onSave ev s :
  is_down ev || is_move ev = true ->
  onSave (step png_base64 props s ev) = onSave s.
Proof.
  intros Hev. destruct ev; try discriminate; handler.
Qed.

Lemma run_down_move_onSave evs : forall s,
  forallb (fun ev => is_down ev || is_move ev) evs = true ->
  onSave (run png_base64 props evs s) = onSave s.
Proof.
  induction evs as [|ev evs IH]; intros s Hevs.
  - reflexivity.
  - cbn [forallb] in Hevs. apply andb_prop in Hevs as [Hev Hevs].
    rewrite run_cons, IH by assumption. now apply step_down_move_onSave.
Qed.

(** A finalize on a mounted canvas, read-only off: the drawing flag is
    cleared, the canvas is not touched and the encoding of the canvas is
    passed to [onSave]. *)
Lemma stopDrawing_mounted s c :
  readOnly props = false -> canvasRef s = Some c ->
  stopDrawing png_base64 props s
  = (Normal tt,
     {| isDrawing := false; color := color s; lineWidth := lineWidth s;
        isEraser := isEraser s; canvasRef := Some c;
        containerRef := containerRef s;
        devicePixelRatio := devicePixelRatio s;
        pendingImages := pendingImages s;
        onSave := onSave s ++ [toDataURL png_base64 c] |}).
Proof.
  intros Hro Hc. unfold_handlers. rewrite Hro. cbn. rewrite Hc. reflexivity.
Qed.

(** Outside a stroke [draw] returns at once. *)
Lemma draw_idle e s :
  isDrawing s = false -> draw props e s = (Normal tt, s).
Proof.
  intros Hd. unfold_handlers. rewrite Hd. reflexivity.
Qed.

(** With read-only on, every pointer handler returns at once. *)
Lemma readOnly_pointer ev s :
  readOnly props = true -> is_pointer ev = true ->
  dispatch png_base64 props ev s = (Normal tt, s).
Proof.
  intros Hro Hev. destruct ev; try discriminate; unfold_handlers;
    rewrite Hro; cbn; rewrite ?orb_true_r; reflexivity.
Qed.

End Frames.

(** ** Drawing Session State Machine *)

(** C9. A move event received while no stroke is in progress returns at once:
    the handler raises nothing and the whole component state, so the canvas
    bitmap and the list of [onSave] calls, is what it was. *)
Theorem move_while_idle_is_noop png props ev s :
  is_move ev = true ->
  session s = IDLE ->
  dispatch png props ev s = (Normal tt, s)
  /\ canvasRef (step png props s ev) = canvasRef s
  /\ emitted s (step png props s ev) [].
Proof.
  intros Hev Hidle. unfold session in Hidle.
  destruct (isDrawing s) eqn:Hd; [discriminate|].
  assert (H : dispatch png props ev s = (Normal tt, s)).
  { destruct ev; try discriminate; cbn [dispatch]; now apply draw_idle. }
  unfold step, emitted. rewrite H. cbn. rewrite app_nil_r. auto.
Qed.

(** C5. With [readOnly] true, along every sequence of pointer events (mouse
    or touch; down, move, up, leave) started in [IDLE], the state after each
    prefix of the sequence is the starting state: the session stays [IDLE],
    the canvas is not touched, [onSave] is not called, and no handler
    raises. *)
Theorem readOnly_suppresses_everything png props evs s :
  readOnly props = true ->
  forallb is_pointer evs = true ->
  session s = IDLE ->
  forall n,
    let s' := run png props (firstn n evs) s in
    s' = s
    /\ session s' = IDLE
    /\ canvasRef s' = canvasRef s
    /\ emitted s s' []
    /\ forall ev, In ev evs -> raises png props s' ev = false.
Proof.
  intros Hro Hevs Hidle n.
  assert (Hrun : forall l, forallb is_pointer l = true ->
                           run png props l s = s).
  { induction l as [|ev l IH]; intros Hl; [reflexivity|].
    cbn [forallb] in Hl. apply andb_prop in Hl as [Hev Hl].
    rewrite run_cons. unfold step.
    rewrite (readOnly_pointer png props ev s Hro Hev). cbn. auto. }
  assert (Hpre : forallb is_pointer (firstn n evs) = true).
  { pose proof Hevs as Hsplit.
    rewrite <- (firstn_skipn n evs), forallb_app in Hsplit.
    now apply andb_prop in Hsplit as [Hfirst _]. }
  cbv zeta. rewrite (Hrun _ Hpre).
  repeat split; auto.
  - unfold emitted. now rewrite app_nil_r.
  - intros ev Hin. unfold raises.
    rewrite (readOnly_pointer png props ev s Hro); [reflexivity|].
    apply (proj1 (forallb_forall _ _) Hevs); assumption.
Qed.

(** C4. With [readOnly] false and the canvas mounted, a pointer-up, touch-end
    or pointer-leave event received in [IDLE], so with no preceding down,
    still calls [onSave] once with the encoding of the canvas; a mouse that
    only crosses the surface and leaves triggers that emission. *)
Theorem up_or_leave_while_idle_emits png props s canvas :
  readOnly props = false ->
  canvasRef s = Some canvas ->
  session s = IDLE ->
  (forall ev, ev = MouseUp \/ ev = MouseLeave \/ ev = TouchEnd ->
     raises png props s ev = false
     /\ session (step png props s ev) = IDLE
     /\ canvasRef (step png props s ev) = Some canvas
     /\ emitted s (step png props s ev) [toDataURL png canvas])
  /\ (forall cx cy,
     emitted s (run png props [MouseMove cx cy; MouseLeave] s)
             [toDataURL png canvas]).
Proof.
  intros Hro Hc Hidle. split.
  - intros ev [-> | [-> | ->]]; unfold raises, step, dispatch, emitted;
      rewrite (stopDrawing_mounted png props s canvas Hro Hc); cbn; auto.
  - intros cx cy. rewrite run_cons.
    assert (Hmove : draw props (Mouse cx cy) s = (Normal tt, s)).
    { apply draw_idle. unfold session in Hidle.
      destruct (isDrawing s); [discriminate|reflexivity]. }
    unfold step at 1. cbn [dispatch]. rewrite Hmove. cbn.
    unfold step, dispatch, emitted.
    rewrite (stopDrawing_mounted png props s canvas Hro Hc). reflexivity.
Qed.

(** C8. With [readOnly] false and the canvas mounted, a down event followed
    by a pointer-leave (no up) ends in [IDLE] and calls [onSave] once with the
    encoding of the canvas; leave and up run the same handler, so the state
    reached is the one an explicit up reaches.  The down event itself enters
    [DRAWING] whenever the 2D context is there. *)
Theorem leave_ends_stroke png props s canvas d :
  readOnly props = false ->
  canvasRef s = Some canvas ->
  is_down d = true ->
  let s1 := step png props s d in
  let s2 := step png props s1 MouseLeave in
  dispatch png props MouseLeave = dispatch png props MouseUp
  /\ s2 = step png props s1 MouseUp
  /\ session s2 = IDLE
  /\ (exists canvas1,
        canvasRef s1 = Some canvas1 /\ canvasRef s2 = Some canvas1
        /\ emitted s s2 [toDataURL png canvas1])
  /\ (forall ctx, context2d canvas = Some ctx -> session s1 = DRAWING).
Proof.
  intros Hro Hc Hd s1 s2.
  destruct (step_canvasRef png props d s canvas Hc) as [canvas1 Hc1].
  fold s1 in Hc1.
  assert (Hsave : onSave s1 = onSave s).
  { apply step_down_move_onSave. now rewrite Hd. }
  repeat split.
  - subst s2. unfold step, dispatch.
    rewrite (stopDrawing_mounted png props s1 canvas1 Hro Hc1). reflexivity.
  - exists canvas1. subst s2. unfold step, dispatch, emitted.
    rewrite (stopDrawing_mounted png props s1 canvas1 Hro Hc1). cbn.
    rewrite Hsave. auto.
  - intros ctx Hctx. subst s1. clear Hc1 Hsave s2.
    unfold session.
    destruct d; try discriminate; unfold_handlers; rewrite Hro; cbn;
      rewrite Hc; unfold CanvasAPI.getContext; rewrite Hctx; cbn.
    + reflexivity.
    + destruct touches; reflexivity.
Qed.

(** C3. With [readOnly] false and the canvas mounted, a gesture down,
    move x N, up calls [onSave] exactly once: nothing is emitted after any
    prefix of the down and move events, and the up event appends one call
    whose argument is the encoding of the canvas as it is after the up. *)
Theorem one_emission_per_gesture png props s canvas d ms u :
  readOnly props = false ->
  canvasRef s = Some canvas ->
  is_down d = true ->
  forallb is_move ms = true ->
  is_up u = true ->
  let s' := run png props (d :: ms ++ [u]) s in
  (forall n, emitted s (run png props (firstn n (d :: ms)) s) [])
  /\ exists canvas',
       canvasRef s' = Some canvas'
       /\ emitted s s' [toDataURL png canvas'].
Proof.
  intros Hro Hc Hd Hms Hu s'.
  assert (Hdm : forallb (fun ev => is_down ev || is_move ev) (d :: ms) = true).
  { cbn [forallb]. rewrite Hd. cbn. apply forallb_forall. intros ev Hin.
    rewrite (proj1 (forallb_forall _ _) Hms ev Hin). apply orb_true_r. }
  split.
  - intros n. unfold emitted. rewrite app_nil_r.
    apply run_down_move_onSave.
    pose proof Hdm as Hsplit.
    rewrite <- (firstn_skipn n (d :: ms)), forallb_app in Hsplit.
    now apply andb_prop in Hsplit as [Hfirst _].
  - subst s'. rewrite app_comm_cons, run_snoc.
    destruct (run_canvasRef png props (d :: ms) s canvas Hc) as [canvas1 Hc1].
    pose proof (run_down_move_onSave png props (d :: ms) s Hdm) as Hsave.
    exists canvas1.
    destruct u; try discriminate; unfold step, dispatch, emitted;
      rewrite (stopDrawing_mounted png props _ canvas1 Hro Hc1);
      cbn [snd onSave canvasRef]; rewrite Hsave; auto.
Qed.

(** ** Tool State and Stroke Renderer *)

(** What [startDrawing] does to the canvas: the bitmap is kept and the
    context is left with the given colour and width. *)
Lemma begin_stroke_canvas px py col w c ctx :
  context2d c = Some ctx ->
  valid_width w = true ->
  let c1 :=
    CanvasAPI.set_lineWidth w
      (CanvasAPI.set_strokeStyle col
         (CanvasAPI.moveTo px py (CanvasAPI.beginPath c))) in
  bitmap c1 = bitmap c /\ styled col w c1.
Proof.
  intros Hctx Hw. unfold valid_width in Hw.
  unfold CanvasAPI.set_lineWidth, CanvasAPI.set_strokeStyle, CanvasAPI.moveTo,
    CanvasAPI.beginPath, CanvasAPI.withContext, styled.
  cbn. rewrite Hctx. cbn. split; [reflexivity|].
  destruct (CanvasAPI.finite2 px py); cbn; rewrite Hw; cbn; eauto.
Qed.

(** What [draw] does to the canvas: one more stroke in the style of the
    context, which keeps that style. *)
Lemma extend_stroke_canvas px py col w c :
  styled col w c ->
  let c1 := CanvasAPI.stroke (CanvasAPI.lineTo px py c) in
  styled col w c1
  /\ exists op, bitmap c1 = bitmap c ++ [op] /\ rendered_with col w op.
Proof.
  intros (ctx & Hctx & Hcol & Hw).
  unfold CanvasAPI.stroke, CanvasAPI.lineTo, CanvasAPI.withContext,
    CanvasAPI.paint, styled, rendered_with.
  cbn. rewrite Hctx. cbn.
  destruct (CanvasAPI.finite2 px py); cbn; rewrite ?Hcol, ?Hw;
    split; eauto 10.
Qed.

Section Strokes.

Variable png_base64 : RasterImage -> string.
Variable props : CanvasProps.
Hypothesis editable_props : readOnly props = false.

(** A well-formed down event on an available context enters [DRAWING],
    paints nothing and sets the context to the tool of the moment. *)
Lemma down_sets_style d s c ctx :
  canvasRef s = Some c -> context2d c = Some ctx ->
  is_down d = true -> well_formed d = true ->
  valid_width (tool_width s) = true ->
  exists c1,
    canvasRef (step png_base64 props s d) = Some c1
    /\ isDrawing (step png_base64 props s d) = true
    /\ bitmap c1 = bitmap c
    /\ styled (tool_color s) (tool_width s) c1.
Proof.
  intros Hc Hctx Hd Hwf Hw. unfold tool_color, tool_width in *.
  destruct d as [cx cy| | | |[|t ts]| | | | | | | |]; try discriminate;
    unfold_handlers; rewrite editable_props;
    cbn; rewrite Hc; unfold CanvasAPI.getContext; rewrite Hctx; cbn;
    (eexists; split; [reflexivity|]; split; [reflexivity|];
     eapply begin_stroke_canvas; eassumption).
Qed.

(** A well-formed move event in [DRAWING] on a styled context paints one
    stroke in that style; the session and the style stay. *)
Lemma move_paints_styled m s c col w :
  canvasRef s = Some c -> styled col w c ->
  isDrawing s = true ->
  is_move m = true -> well_formed m = true ->
  exists c1 op,
    canvasRef (step png_base64 props s m) = Some c1
    /\ isDrawing (step png_base64 props s m) = true
    /\ styled col w c1
    /\ bitmap c1 = bitmap c ++ [op]
    /\ rendered_with col w op.
Proof.
  intros Hc Hst Hdr Hm Hwf.
  pose proof Hst as (ctx & Hctx & _).
  destruct m as [| cx cy | | | |[|t ts]| | | | | | |]; try discriminate;
    unfold_handlers; rewrite editable_props, Hdr;
    cbn; rewrite Hc; unfold CanvasAPI.getContext; rewrite Hctx; cbn;
    match goal with
    | |- context [CanvasAPI.stroke (CanvasAPI.lineTo ?px ?py c)] =>
        destruct (extend_stroke_canvas px py col w c Hst)
          as (Hst1 & op & Hbm & Hop)
    end;
    eexists; exists op; repeat split; eauto.
Qed.

Lemma moves_paint_styled ms : forall s c col w,
  canvasRef s = Some c -> styled col w c ->
  isDrawing s = true ->
  forallb is_move ms = true -> forallb well_formed ms = true ->
  exists c1 ops,
    canvasRef (run png_base64 props ms s) = Some c1
    /\ painted c c1 ops
    /\ List.length ops = List.length ms
    /\ Forall (rendered_with col w) ops.
Proof.
  induction ms as [|m ms IH]; intros s c col w Hc Hst Hdr Hms Hwf.
  - exists c, []. cbn. unfold painted. rewrite app_nil_r. auto.
  - cbn [forallb] in Hms, Hwf.
    apply andb_prop in Hms as [Hm Hms]. apply andb_prop in Hwf as [Hw Hwf].
    destruct (move_paints_styled m s c col w Hc Hst Hdr Hm Hw)
      as (c1 & op & Hc1 & Hdr1 & Hst1 & Hbm1 & Hop).
    destruct (IH _ c1 col w Hc1 Hst1 Hdr1 Hms Hwf)
      as (c2 & ops & Hc2 & Hbm2 & Hlen & Hall).
    exists c2, (op :: ops). rewrite run_cons. unfold painted in *.
    repeat split; auto.
    + rewrite Hbm2, Hbm1, <- app_assoc. reflexivity.
    + cbn. now rewrite Hlen.
Qed.

(** A whole stroke: a well-formed down followed by well-formed moves paints
    one operation per move, each in the tool picked at the down event. *)
Lemma stroke_uses_tool d ms s c ctx :
  canvasRef s = Some c -> context2d c = Some ctx ->
  is_down d = true -> forallb is_move ms = true ->
  forallb well_formed (d :: ms) = true ->
  valid_width (tool_width s) = true ->
  exists c1 ops,
    canvasRef (run png_base64 props (d :: ms) s) = Some c1
    /\ painted c c1 ops
    /\ List.length ops = List.length ms
    /\ Forall (rendered_with (tool_color s) (tool_width s)) ops.
Proof.
  intros Hc Hctx Hd Hms Hwf Hw.
  cbn [forallb] in Hwf. apply andb_prop in Hwf as [Hwd Hwf].
  destruct (down_sets_style d s c ctx Hc Hctx Hd Hwd Hw)
    as (c1 & Hc1 & Hdr1 & Hbm1 & Hst1).
  destruct (moves_paint_styled ms _ c1 _ _ Hc1 Hst1 Hdr1 Hms Hwf)
    as (c2 & ops & Hc2 & Hbm2 & Hlen & Hall).
  exists c2, ops. rewrite run_cons. unfold painted in *.
  rewrite Hbm2, Hbm1. auto.
Qed.

End Strokes.

(** The pen width is never written, and the pen colour only by the three
    colour buttons: in every state the component reaches, the width is the
    default 3 and the colour one of the palette. *)
Lemma step_lineWidth png props ev s :
  lineWidth (step png props s ev) = lineWidth s.
Proof. destruct ev; handler. Qed.

Lemma step_color png props ev s :
  (exists sw, color s = hex sw) ->
  exists sw, color (step png props s ev) = hex sw.
Proof.
  intros [sw0 Hsw0]. destruct ev; handler; eauto.
Qed.

Lemma reachable_pen png props evs : forall s,
  lineWidth s = 3%float -> (exists sw, color s = hex sw) ->
  lineWidth (run png props evs s) = 3%float
  /\ exists sw, color (run png props evs s) = hex sw.
Proof.
  induction evs as [|ev evs IH]; intros s Hw Hcol.
  - auto.
  - rewrite run_cons. apply IH.
    + now rewrite step_lineWidth.
    + now apply step_color.
Qed.

(** C6. With [readOnly] false and the 2D context available, a stroke (a down
    event followed by move events, each carrying a point) started with the
    eraser active paints one operation per move, every one of them in
    ['#ffffff'] at width 20, whatever pen colour and width are stored.  In any
    state the component reaches, switching the eraser off (the pencil button)
    leaves the stored colour as it is, a colour of the palette, and the next
    stroke is painted in that colour at the default width 3. *)
Theorem eraser_override png props s canvas ctx d ms :
  readOnly props = false ->
  canvasRef s = Some canvas ->
  context2d canvas = Some ctx ->
  is_down d = true ->
  forallb is_move ms = true ->
  forallb well_formed (d :: ms) = true ->
  (isEraser s = true ->
   exists canvas' ops,
     canvasRef (run png props (d :: ms) s) = Some canvas'
     /\ painted canvas canvas' ops
     /\ List.length ops = List.length ms
     /\ Forall (rendered_with "#ffffff" 20%float) ops)
  /\ (forall evs c0 k dpr,
      s = run png props evs (firstRender c0 k dpr) ->
      let s1 := step png props s ClickPencil in
      color s1 = color s
      /\ (exists sw, color s = hex sw)
      /\ isEraser s1 = false
      /\ canvasRef s1 = canvasRef s
      /\ exists canvas' ops,
           canvasRef (run png props (d :: ms) s1) = Some canvas'
           /\ painted canvas canvas' ops
           /\ List.length ops = List.length ms
           /\ Forall (rendered_with (color s) 3%float) ops).
Proof.
  intros Hro Hc Hctx Hd Hms Hwf. split.
  - intros Her.
    pose proof (stroke_uses_tool png props Hro d ms s canvas ctx
                  Hc Hctx Hd Hms Hwf) as H.
    unfold tool_color, tool_width in H. rewrite Her in H.
    apply H. reflexivity.
  - intros evs c0 k dpr Hreach s1.
    destruct (reachable_pen png props evs (firstRender c0 k dpr) eq_refl
                (ex_intro _ Indigo950 eq_refl)) as [Hw Hcol].
    rewrite <- Hreach in Hw, Hcol.
    assert (Hs1 : color s1 = color s /\ isEraser s1 = false
                  /\ canvasRef s1 = canvasRef s
                  /\ lineWidth s1 = lineWidth s).
    { subst s1. unfold_handlers. rewrite Hro. cbn. auto. }
    destruct Hs1 as (Hcol1 & Her1 & Hc1 & Hw1).
    repeat (split; [assumption|]).
    rewrite Hc in Hc1.
    pose proof (stroke_uses_tool png props Hro d ms s1 canvas ctx
                  Hc1 Hctx Hd Hms Hwf) as H.
    unfold tool_color, tool_width in H.
    rewrite Her1, Hcol1, Hw1, Hw in H.
    apply H. reflexivity.
Qed.

(** ** Snapshot Codec *)

Ltac unfold_canvas :=
  unfold CanvasAPI.clearRect, CanvasAPI.drawImage, CanvasAPI.stroke,
    CanvasAPI.lineTo, CanvasAPI.moveTo, CanvasAPI.beginPath,
    CanvasAPI.set_lineWidth, CanvasAPI.set_strokeStyle, CanvasAPI.set_lineCap,
    CanvasAPI.set_lineJoin, CanvasAPI.scale, CanvasAPI.set_width,
    CanvasAPI.set_height, CanvasAPI.paint, CanvasAPI.withContext,
    CanvasAPI.getContext in *.

(** An encoding is never the empty string. *)
Lemma toDataURL_nonempty png c : toDataURL png c <> "".
Proof.
  unfold toDataURL. destruct ((width c =? 0) || (height c =? 0))%Z;
    cbn; discriminate.
Qed.

(** Once mounted, the canvas keeps the dimensions the mount effect computes
    from the container and the device pixel ratio, whatever happens next. *)
Lemma step_dimensions png props ev s container :
  containerRef s = Some container ->
  snapshotDimensions s
  = Some (physicalDimensions container (devicePixelRatio s)) ->
  containerRef (step png props s ev) = Some container
  /\ devicePixelRatio (step png props s ev) = devicePixelRatio s
  /\ snapshotDimensions (step png props s ev)
     = Some (physicalDimensions container (devicePixelRatio s)).
Proof.
  unfold snapshotDimensions, physicalDimensions, canvasImage.
  intros Hk Hdim. destruct (canvasRef s) as [c|] eqn:Hc; [|discriminate].
  cbn in Hdim.
  destruct ev; unfold_handlers; cbn; rewrite ?Hc, ?Hk; cbn;
    unfold_canvas; cbn; split_tests; repeat split; auto;
    try congruence;
    match goal with
    | H : canvasRef s = _ |- _ => rewrite H; cbn; congruence
    end.
Qed.

Lemma run_dimensions png props evs : forall s container,
  containerRef s = Some container ->
  snapshotDimensions s
  = Some (physicalDimensions container (devicePixelRatio s)) ->
  snapshotDimensions (run png props evs s)
  = Some (physicalDimensions container (devicePixelRatio s)).
Proof.
  induction evs as [|ev evs IH]; intros s container Hk Hdim.
  - assumption.
  - rewrite run_cons.
    destruct (step_dimensions png props ev s container Hk Hdim)
      as (Hk' & Hdpr' & Hdim').
    rewrite <- Hdpr'. apply IH; [assumption|]. now rewrite Hdpr'.
Qed.

Lemma mountEffect_dimensions png props s canvas container :
  canvasRef s = Some canvas ->
  containerRef s = Some container ->
  containerRef (step png props s EffectRun) = Some container
  /\ devicePixelRatio (step png props s EffectRun) = devicePixelRatio s
  /\ snapshotDimensions (step png props s EffectRun)
     = Some (physicalDimensions container (devicePixelRatio s)).
Proof.
  intros Hc Hk. unfold snapshotDimensions, physicalDimensions, canvasImage.
  unfold_handlers; cbn; rewrite Hc, Hk; cbn.
  unfold_canvas; cbn; split_tests; repeat split; auto.
Qed.

(** C2, as the code has it. The image a snapshot encodes is the whole bitmap
    of the canvas at its physical pixel dimensions: once the mount effect has
    run, and whatever events follow, they are the client width and height of
    the container multiplied by the device pixel ratio (by 1 when the ratio is
    0 or NaN) and converted to an unsigned integer.  A finalize passes the
    encoding of exactly that image to [onSave]; nothing divides by the
    ratio. *)
Theorem snapshot_has_physical_dimensions png props s canvas container evs :
  canvasRef s = Some canvas ->
  containerRef s = Some container ->
  let s' := run png props (EffectRun :: evs) s in
  exists canvas',
    canvasRef s' = Some canvas'
    /\ (img_width (canvasImage canvas'), img_height (canvasImage canvas'))
       = physicalDimensions container (devicePixelRatio s)
    /\ img_pixels (canvasImage canvas') = bitmap canvas'
    /\ (toDataURL png canvas' = "data:,"
        \/ toDataURL png canvas'
           = ("data:image/png;base64," ++ png (canvasImage canvas'))%string)
    /\ (readOnly props = false ->
        forall u, is_up u = true ->
          emitted s' (step png props s' u) [toDataURL png canvas']).
Proof.
  intros Hc Hk s'.
  destruct (mountEffect_dimensions png props s canvas container Hc Hk)
    as (Hk1 & Hdpr1 & Hdim1).
  assert (Hdim : snapshotDimensions s'
                 = Some (physicalDimensions container (devicePixelRatio s))).
  { subst s'. rewrite run_cons, <- Hdpr1.
    apply run_dimensions; [assumption|]. now rewrite Hdpr1. }
  unfold snapshotDimensions in Hdim.
  destruct (canvasRef s') as [canvas'|] eqn:Hc'; [|discriminate].
  cbn [option_map] in Hdim. exists canvas'. split; [reflexivity|].
  split.
  { injection Hdim as Hw Hh. unfold physicalDimensions. cbv zeta.
    cbn [canvasImage img_width img_height]. now rewrite Hw, Hh. }
  split; [reflexivity|]. split.
  - unfold toDataURL.
    destruct ((width canvas' =? 0) || (height canvas' =? 0))%Z; auto.
  - intros Hro u Hu.
    destruct u; try discriminate; unfold step, dispatch, emitted;
      rewrite (stopDrawing_mounted png props s' canvas' Hro Hc');
      reflexivity.
Qed.

(** C1, as the code has it. With [readOnly] false and the canvas mounted,
    clear (with the 2D context available) passes the empty string to
    [onSave], whatever the canvas holds; a finalize (up, leave, touch end)
    passes the encoding of the canvas, and an encoding is never the empty
    string, blank canvas or not. *)
Theorem clear_emits_sentinel_finalize_emits_encoding png props s canvas :
  readOnly props = false ->
  canvasRef s = Some canvas ->
  (forall ctx, context2d canvas = Some ctx ->
     raises png props s ClickClear = false
     /\ emitted s (step png props s ClickClear) [""])
  /\ (forall ev, ev = MouseUp \/ ev = MouseLeave \/ ev = TouchEnd ->
     emitted s (step png props s ev) [toDataURL png canvas])
  /\ toDataURL png canvas <> "".
Proof.
  intros Hro Hc. split; [|split].
  - intros ctx Hctx.
    split; unfold_handlers; rewrite Hro, Hc; unfold CanvasAPI.getContext;
      rewrite Hctx; reflexivity.
  - intros ev [-> | [-> | ->]]; unfold step, dispatch, emitted;
      rewrite (stopDrawing_mounted png props s canvas Hro Hc); reflexivity.
  - apply toDataURL_nonempty.
Qed.

(** ** Unavailable render target *)

(** C10, as the code has it. When no canvas is mounted or its 2D context
    cannot be obtained, begin stroke, extend stroke and clear return at once:
    nothing is raised and the state is untouched.  Finalize raises nothing
    either and touches neither the tool state nor the canvas; it clears the
    drawing flag (unless read-only), emits nothing when no canvas is mounted,
    and when a canvas is mounted without a context it still passes the
    encoding of that canvas to [onSave]. *)
Theorem unavailable_target_noops png props s e :
  unavailable s = true ->
  startDrawing props e s = (Normal tt, s)
  /\ draw props e s = (Normal tt, s)
  /\ clearCanvas s = (Normal tt, s)
  /\ exists s',
       stopDrawing png props s = (Normal tt, s')
       /\ isDrawing s' = (if readOnly props then isDrawing s else false)
       /\ color s' = color s /\ lineWidth s' = lineWidth s
       /\ isEraser s' = isEraser s /\ canvasRef s' = canvasRef s
       /\ (canvasRef s = None -> emitted s s' [])
       /\ (forall canvas, canvasRef s = Some canvas ->
             emitted s s'
               (if readOnly props then [] else [toDataURL png canvas])).
Proof.
  unfold unavailable, emitted, CanvasAPI.getContext. intros Hun.
  repeat split.
  - unfold_handlers. unfold CanvasAPI.getContext.
    destruct (readOnly props); cbn; [reflexivity|].
    destruct (canvasRef s) as [c|]; [|reflexivity].
    destruct (context2d c); [discriminate|reflexivity].
  - unfold_handlers. unfold CanvasAPI.getContext. cbn.
    destruct (negb (isDrawing s) || readOnly props); cbn; [reflexivity|].
    destruct (canvasRef s) as [c|]; [|reflexivity].
    destruct (context2d c); [discriminate|reflexivity].
  - unfold_handlers. unfold CanvasAPI.getContext. cbn.
    destruct (canvasRef s) as [c|]; [|reflexivity].
    destruct (context2d c); [discriminate|reflexivity].
  - unfold_handlers.
    destruct (readOnly props); cbn;
      destruct (canvasRef s) as [c|] eqn:Hc; cbn;
      eexists; (split; [reflexivity|]); cbn; rewrite ?app_nil_r;
      repeat split; auto; try discriminate;
      intros canvas0 Heq; now inversion Heq.
Qed.

(** * The claims at concrete inputs *)

(** A 100 by 50 container mounted at ratio 2, a mouse at screen (120, 130)
    that was never pressed: the move changes nothing. *)
Lemma move_while_idle_is_noop_witness :
  dispatch samplePng editable (MouseMove 120%float 130%float)
           (mounted true 2%float)
  = (Normal tt, mounted true 2%float)
  /\ canvasRef (step samplePng editable (mounted true 2%float)
                     (MouseMove 120%float 130%float))
     = canvasRef (mounted true 2%float)
  /\ emitted (mounted true 2%float)
             (step samplePng editable (mounted true 2%float)
                   (MouseMove 120%float 130%float)) [].
Proof.
  apply move_while_idle_is_noop; reflexivity.
Defined.

(** A read-only component under a mouse stroke, an empty touch start and a
    leave, observed after the third event. *)
Lemma readOnly_suppresses_everything_witness :
  let s := firstRender (Some (newCanvas sampleRect true))
                       (Some sampleContainer) 2%float in
  let evs := [MouseDown 120%float 130%float; MouseMove 121%float 131%float;
              TouchStart []; TouchMove [sampleTouch]; MouseUp; TouchEnd;
              MouseLeave] in
  let s' := run samplePng viewOnly (firstn 3 evs) s in
  s' = s
  /\ session s' = IDLE
  /\ canvasRef s' = canvasRef s
  /\ emitted s s' []
  /\ forall ev, In ev evs -> raises samplePng viewOnly s' ev = false.
Proof.
  apply readOnly_suppresses_everything; reflexivity.
Defined.

(** A mouse that enters, moves and leaves a freshly mounted surface. *)
Lemma up_or_leave_while_idle_emits_witness :
  (forall ev, ev = MouseUp \/ ev = MouseLeave \/ ev = TouchEnd ->
     raises samplePng editable (mounted true 2%float) ev = false
     /\ session (step samplePng editable (mounted true 2%float) ev) = IDLE
     /\ canvasRef (step samplePng editable (mounted true 2%float) ev)
        = Some (mountedCanvas true 2%float)
     /\ emitted (mounted true 2%float)
                (step samplePng editable (mounted true 2%float) ev)
                [toDataURL samplePng (mountedCanvas true 2%float)])
  /\ (forall cx cy,
     emitted (mounted true 2%float)
             (run samplePng editable [MouseMove cx cy; MouseLeave]
                  (mounted true 2%float))
             [toDataURL samplePng (mountedCanvas true 2%float)]).
Proof.
  apply up_or_leave_while_idle_emits; reflexivity.
Defined.

(** A touch that starts on the surface, then a mouse leave. *)
Lemma leave_ends_stroke_witness :
  let s := mounted true 2%float in
  let s1 := step samplePng editable s (TouchStart [sampleTouch]) in
  let s2 := step samplePng editable s1 MouseLeave in
  dispatch samplePng editable MouseLeave = dispatch samplePng editable MouseUp
  /\ s2 = step samplePng editable s1 MouseUp
  /\ session s2 = IDLE
  /\ (exists canvas1,
        canvasRef s1 = Some canvas1 /\ canvasRef s2 = Some canvas1
        /\ emitted s s2 [toDataURL samplePng canvas1])
  /\ (forall ctx, context2d (mountedCanvas true 2%float) = Some ctx ->
      session s1 = DRAWING).
Proof.
  apply (leave_ends_stroke samplePng editable (mounted true 2%float)
           (mountedCanvas true 2%float) (TouchStart [sampleTouch]));
    reflexivity.
Defined.

(** A mouse stroke of two moves. *)
Lemma one_emission_per_gesture_witness :
  let s := mounted true 2%float in
  let d := MouseDown 120%float 130%float in
  let ms := [MouseMove 121%float 131%float; MouseMove 125%float 140%float] in
  let s' := run samplePng editable (d :: ms ++ [MouseUp]) s in
  (forall n, emitted s (run samplePng editable (firstn n (d :: ms)) s) [])
  /\ exists canvas',
       canvasRef s' = Some canvas'
       /\ emitted s s' [toDataURL samplePng canvas'].
Proof.
  apply (one_emission_per_gesture samplePng editable (mounted true 2%float)
           (mountedCanvas true 2%float));
    reflexivity.
Defined.

(** Red is selected, then the eraser: the stroke is white at 20; after the
    pencil button the same stroke is red at 3. *)
Lemma eraser_override_witness :
  (exists canvas' ops,
     canvasRef (run samplePng editable (sampleDown :: sampleMoves) erasing)
     = Some canvas'
     /\ painted (mountedCanvas true 2%float) canvas' ops
     /\ List.length ops = 2%nat
     /\ Forall (rendered_with "#ffffff" 20%float) ops)
  /\ (let s1 := step samplePng editable erasing ClickPencil in
      color s1 = "#dc2626"
      /\ (exists sw, color erasing = hex sw)
      /\ isEraser s1 = false
      /\ canvasRef s1 = canvasRef erasing
      /\ exists canvas' ops,
           canvasRef (run samplePng editable (sampleDown :: sampleMoves) s1)
           = Some canvas'
           /\ painted (mountedCanvas true 2%float) canvas' ops
           /\ List.length ops = 2%nat
           /\ Forall (rendered_with "#dc2626" 3%float) ops).
Proof.
  destruct (eraser_override samplePng editable erasing
              (mountedCanvas true 2%float)
              {| strokeStyle := "#000000"; ctx_lineWidth := 1%float;
                 lineCap := "round"; lineJoin := "round";
                 transform := (2%float, 2%float); path := [] |}
              sampleDown sampleMoves
              eq_refl eq_refl eq_refl eq_refl eq_refl eq_refl)
    as [Heraser Hpen].
  split.
  - exact (Heraser eq_refl).
  - exact (Hpen redThenEraser (Some (newCanvas sampleRect true))
                (Some sampleContainer) 2%float eq_refl).
Defined.

(** A 100 by 50 container mounted at ratio 2 and drawn on: the snapshot is
    200 by 100. *)
Lemma snapshot_has_physical_dimensions_witness :
  let s := firstRender (Some (newCanvas sampleRect true))
                       (Some sampleContainer) 2%float in
  let s' := run samplePng editable
                (EffectRun :: sampleDown :: sampleMoves) s in
  exists canvas',
    canvasRef s' = Some canvas'
    /\ (img_width (canvasImage canvas'), img_height (canvasImage canvas'))
       = physicalDimensions sampleContainer 2%float
    /\ img_pixels (canvasImage canvas') = bitmap canvas'
    /\ (toDataURL samplePng canvas' = "data:,"
        \/ toDataURL samplePng canvas'
           = ("data:image/png;base64," ++ samplePng (canvasImage canvas'))%string)
    /\ (readOnly editable = false ->
        forall u, is_up u = true ->
          emitted s' (step samplePng editable s' u)
                  [toDataURL samplePng canvas']).
Proof.
  apply (snapshot_has_physical_dimensions samplePng editable
           (firstRender (Some (newCanvas sampleRect true))
                        (Some sampleContainer) 2%float)
           (newCanvas sampleRect true) sampleContainer
           (sampleDown :: sampleMoves));
    reflexivity.
Defined.

(** Clear and finalize on the freshly mounted sample component. *)
Lemma clear_emits_sentinel_finalize_emits_encoding_witness :
  (forall ctx, context2d (mountedCanvas true 2%float) = Some ctx ->
     raises samplePng editable (mounted true 2%float) ClickClear = false
     /\ emitted (mounted true 2%float)
                (step samplePng editable (mounted true 2%float) ClickClear)
                [""])
  /\ (forall ev, ev = MouseUp \/ ev = MouseLeave \/ ev = TouchEnd ->
     emitted (mounted true 2%float)
             (step samplePng editable (mounted true 2%float) ev)
             [toDataURL samplePng (mountedCanvas true 2%float)])
  /\ toDataURL samplePng (mountedCanvas true 2%float) <> "".
Proof.
  apply clear_emits_sentinel_finalize_emits_encoding; reflexivity.
Defined.

(** The sample component before any canvas is attached. *)
Lemma unavailable_target_noops_witness :
  let s := firstRender None None 2%float in
  let e := Mouse 120%float 130%float in
  startDrawing editable e s = (Normal tt, s)
  /\ draw editable e s = (Normal tt, s)
  /\ clearCanvas s = (Normal tt, s)
  /\ exists s',
       stopDrawing samplePng editable s = (Normal tt, s')
       /\ isDrawing s' = (if readOnly editable then isDrawing s else false)
       /\ color s' = color s /\ lineWidth s' = lineWidth s
       /\ isEraser s' = isEraser s /\ canvasRef s' = canvasRef s
       /\ (canvasRef s = None -> emitted s s' [])
       /\ (forall canvas, canvasRef s = Some canvas ->
             emitted s s'
               (if readOnly editable then []
                else [toDataURL samplePng canvas])).
Proof.
  apply unavailable_target_noops; reflexivity.
Defined.

(** * Where the spec and the code part *)

(** C1, as the spec states it, fails: on a freshly mounted surface, blank
    before and after, a click (down then up) passes a non-empty encoding to
    [onSave]; and right after clear, on a surface that is blank again, a
    pointer-leave does the same. *)
Lemma blank_surface_snapshot_is_not_empty :
  let s := mounted true 2%float in
  let s1 := run samplePng editable [MouseDown 120%float 130%float; MouseUp] s in
  let s2 := run samplePng editable [ClickClear; MouseLeave] s in
  surfaceBlank s = true
  /\ surfaceBlank s1 = true
  /\ onSave s1 = ["data:image/png;base64,iVBORw0KGgo="]
  /\ onSave s1 <> [""]
  /\ surfaceBlank s2 = true
  /\ onSave s2 = [""; "data:image/png;base64,iVBORw0KGgo="]
  /\ onSave s2 <> [""; ""].
Proof.
  cbv zeta. repeat split; try reflexivity; vm_compute; discriminate.
Qed.

(** C2, as the spec states it, fails: the same 100 by 50 container and the
    same stroke give a 100 by 50 snapshot at ratio 1 and a 200 by 100 one at
    ratio 2, which is not the logical region (200 / 2 by 100 / 2). *)
Lemma snapshot_dimensions_depend_on_density :
  let gesture := sampleDown :: sampleMoves ++ [MouseUp] in
  let s1 := run samplePng editable gesture (mounted true 1%float) in
  let s2 := run samplePng editable gesture (mounted true 2%float) in
  containerRef s1 = Some sampleContainer
  /\ containerRef s2 = Some sampleContainer
  /\ snapshotDimensions s1 = Some (100, 50)%Z
  /\ snapshotDimensions s2 = Some (200, 100)%Z
  /\ snapshotDimensions s2 <> Some (200 / 2, 100 / 2)%Z
  /\ snapshotDimensions s2 <> snapshotDimensions s1.
Proof.
  cbv zeta. repeat split; try reflexivity; vm_compute; discriminate.
Qed.

(** C10, as the spec states it, fails: with a canvas mounted whose 2D context
    cannot be obtained, a pointer-up is not a no-op; it passes an encoding to
    [onSave]. *)
Lemma finalize_without_context_emits :
  let s := mounted false 1%float in
  unavailable s = true
  /\ onSave s = []
  /\ onSave (step samplePng editable s MouseUp)
     = ["data:image/png;base64,iVBORw0KGgo="]
  /\ step samplePng editable s MouseUp <> s.
Proof.
  cbv zeta. repeat split; try reflexivity; vm_compute; discriminate.
Qed.

(** * Further properties of the drawing surface *)

Section Surface.

Variable png_base64 : RasterImage -> string.
Variable props : CanvasProps.

(** [getCoordinates] never touches the state. *)
Lemma getCoordinates_localPoint e canvas s :
  getCoordinates e canvas s
  = match localPoint e canvas with
    | Some p => (Normal p, s)
    | None =>
        (Throw (JS.TypeError
                  "Cannot read properties of undefined (reading 'clientX')"),
         s)
    end.
Proof.
  unfold localPoint. destruct e as [cx cy|[|t ts]]; reflexivity.
Qed.

(** The exact state [startDrawing] reaches on an available context. *)
Lemma startDrawing_available e s canvas ctx :
  readOnly props = false ->
  canvasRef s = Some canvas -> context2d canvas = Some ctx ->
  startDrawing props e s
  = match localPoint e canvas with
    | Some p =>
        (Normal tt,
         {| isDrawing := true; color := color s; lineWidth := lineWidth s;
            isEraser := isEraser s;
            canvasRef :=
              Some (CanvasAPI.set_lineWidth (tool_width s)
                      (CanvasAPI.set_strokeStyle (tool_color s)
                         (CanvasAPI.moveTo (x p) (y p)
                            (CanvasAPI.beginPath canvas))));
            containerRef := containerRef s;
            devicePixelRatio := devicePixelRatio s;
            pendingImages := pendingImages s; onSave := onSave s |})
    | None =>
        (Throw (JS.TypeError
                  "Cannot read properties of undefined (reading 'clientX')"),
         {| isDrawing := true; color := color s; lineWidth := lineWidth s;
            isEraser := isEraser s; canvasRef := Some canvas;
            containerRef := containerRef s;
            devicePixelRatio := devicePixelRatio s;
            pendingImages := pendingImages s; onSave := onSave s |})
    end.
Proof.
  intros Hro Hc Hctx. unfold startDrawing. rewrite Hro.
  unfold bind at 1, get. rewrite Hc. unfold CanvasAPI.getContext.
  rewrite Hctx. unfold bind, setIsDrawing, modify.
  rewrite getCoordinates_localPoint.
  destruct (localPoint e canvas) as [p|]; cbn; rewrite ?Hc; reflexivity.
Qed.

(** The exact state [draw] reaches during a stroke on an available
    context. *)
Lemma draw_available e s canvas ctx :
  readOnly props = false -> isDrawing s = true ->
  canvasRef s = Some canvas -> context2d canvas = Some ctx ->
  draw props e s
  = match localPoint e canvas with
    | Some p =>
        (Normal tt,
         {| isDrawing := true; color := color s; lineWidth := lineWidth s;
            isEraser := isEraser s;
            canvasRef :=
              Some (CanvasAPI.stroke (CanvasAPI.lineTo (x p) (y p) canvas));
            containerRef := containerRef s;
            devicePixelRatio := devicePixelRatio s;
            pendingImages := pendingImages s; onSave := onSave s |})
    | None =>
        (Throw (JS.TypeError
                  "Cannot read properties of undefined (reading 'clientX')"),
         s)
    end.
Proof.
  intros Hro Hd Hc Hctx. unfold draw, bind at 1, get. rewrite Hd, Hro. cbn.
  rewrite Hc. unfold CanvasAPI.getContext. rewrite Hctx. unfold bind.
  rewrite getCoordinates_localPoint.
  destruct (localPoint e canvas) as [p|]; [|reflexivity].
  unfold setCanvas, modify. now rewrite Hd.
Qed.

End Surface.

Section Emissions.

Variable png_base64 : RasterImage -> string.
Variable props : CanvasProps.

(** Every handler appends to the [onSave] calls exactly its emission. *)
Lemma step_onSave ev s :
  onSave (step png_base64 props s ev)
  = onSave s ++ emission png_base64 props s ev.
Proof.
  unfold emission, unavailable.
  destruct ev; handler; rewrite ?app_nil_r; try reflexivity; try congruence.
Qed.

(** The render target, once available, stays available. *)
Lemma step_available ev s :
  unavailable s = false -> unavailable (step png_base64 props s ev) = false.
Proof.
  unfold unavailable. intros Hav.
  destruct (canvasRef s) as [c|] eqn:Hc; [|discriminate].
  unfold CanvasAPI.getContext in *.
  destruct (context2d c) as [ctx|] eqn:Hctx; [|discriminate].
  destruct ev; unfold_handlers; cbn; rewrite ?Hc; cbn;
    unfold_canvas; cbn; rewrite ?Hctx; cbn; split_tests;
    rewrite ?Hc, ?Hctx; cbn; rewrite ?Hctx; try reflexivity;
    try congruence;
    repeat match goal with
           | H : Some _ = Some _ |- _ => inversion H; subst; clear H
           end;
    cbn in *; congruence.
Qed.

End Emissions.

(** X1. A touchstart that lists no touch point, on an available context with
    [readOnly] false: the handler raises a TypeError after it has set the
    drawing flag, so the session is [DRAWING] although no path was begun, the
    canvas is untouched and nothing is emitted.  A following move that
    carries a point is then painted in the style the context was left with,
    not in the current tool; a touchmove without points raises and changes
    nothing. *)
Theorem touch_without_points png props s canvas ctx :
  readOnly props = false ->
  canvasRef s = Some canvas ->
  context2d canvas = Some ctx ->
  let s1 := step png props s (TouchStart []) in
  raises png props s (TouchStart []) = true
  /\ session s1 = DRAWING
  /\ canvasRef s1 = Some canvas
  /\ emitted s s1 []
  /\ raises png props s1 (TouchMove []) = true
  /\ step png props s1 (TouchMove []) = s1
  /\ forall m, is_move m = true -> well_formed m = true ->
       exists canvas' op,
         canvasRef (step png props s1 m) = Some canvas'
         /\ painted canvas canvas' [op]
         /\ rendered_with (strokeStyle ctx) (ctx_lineWidth ctx) op.
Proof.
  intros Hro Hc Hctx s1.
  pose (entered :=
          {| isDrawing := true; color := color s; lineWidth := lineWidth s;
             isEraser := isEraser s; canvasRef := Some canvas;
             containerRef := containerRef s;
             devicePixelRatio := devicePixelRatio s;
             pendingImages := pendingImages s; onSave := onSave s |}).
  assert (Hs1 : dispatch png props (TouchStart []) s
                = (Throw (JS.TypeError
                     "Cannot read properties of undefined (reading 'clientX')"),
                   entered)).
  { cbn [dispatch].
    now rewrite (startDrawing_available props _ s canvas ctx Hro Hc Hctx). }
  assert (Hentered : s1 = entered).
  { subst s1. unfold step. now rewrite Hs1. }
  assert (Hmove : dispatch png props (TouchMove []) entered
                  = (Throw (JS.TypeError
                       "Cannot read properties of undefined (reading 'clientX')"),
                     entered)).
  { cbn [dispatch].
    now rewrite (draw_available props _ entered canvas ctx
                   Hro eq_refl eq_refl Hctx). }
  unfold raises. rewrite Hentered, Hs1. unfold step. rewrite Hmove.
  repeat split.
  - unfold emitted. cbn. now rewrite app_nil_r.
  - intros m Hm Hwf.
    assert (Hst : styled (strokeStyle ctx) (ctx_lineWidth ctx) canvas).
    { exists ctx. auto. }
    destruct (move_paints_styled png props Hro m entered canvas _ _
                eq_refl Hst eq_refl Hm Hwf)
      as (c1 & op & Hc1 & _ & _ & Hbm & Hop).
    exists c1, op. auto.
Qed.

(** Moves and tool buttons during a stroke: the moves paint in the style of
    the context, the buttons leave canvas and session alone. *)
Lemma moves_and_tools_paint_styled png props evs : forall s c col w,
  readOnly props = false ->
  canvasRef s = Some c -> styled col w c -> isDrawing s = true ->
  forallb (fun ev => is_move ev || is_tool ev) evs = true ->
  forallb well_formed evs = true ->
  exists c1 ops,
    canvasRef (run png props evs s) = Some c1
    /\ painted c c1 ops
    /\ List.length ops = List.length (filter is_move evs)
    /\ Forall (rendered_with col w) ops.
Proof.
  induction evs as [|ev evs IH]; intros s c col w Hro Hc Hst Hdr Hevs Hwf.
  - exists c, []. unfold painted. cbn. rewrite app_nil_r. auto.
  - cbn [forallb] in Hevs, Hwf.
    apply andb_prop in Hevs as [Hev Hevs]. apply andb_prop in Hwf as [Hw Hwf].
    rewrite run_cons. cbn [filter]. destruct (is_move ev) eqn:Hm.
    + destruct (move_paints_styled png props Hro ev s c col w
                  Hc Hst Hdr Hm Hw)
        as (c2 & op & Hc2 & Hdr2 & Hst2 & Hbm2 & Hop).
      destruct (IH _ c2 col w Hro Hc2 Hst2 Hdr2 Hevs Hwf)
        as (c3 & ops & Hc3 & Hbm3 & Hlen & Hall).
      exists c3, (op :: ops). unfold painted in *.
      repeat split; auto.
      * rewrite Hbm3, Hbm2, <- app_assoc. reflexivity.
      * cbn. now rewrite Hlen.
    + cbn in Hev.
      assert (Htool : canvasRef (step png props s ev) = Some c
                      /\ isDrawing (step png props s ev) = true).
      { destruct ev; try discriminate; unfold_handlers; rewrite Hro; cbn;
          auto. }
      destruct Htool as [Hc2 Hdr2].
      apply (IH _ c col w Hro Hc2 Hst Hdr2 Hevs Hwf).
Qed.

(** X2. The style of a stroke is fixed at its down event: with [readOnly]
    false, an available context and the default pen width, a down event
    followed by moves that carry a point, with presses of the pencil, colour
    and eraser buttons anywhere in between, paints one operation per move,
    every one in the tool that was selected when the stroke began. *)
Theorem stroke_style_fixed_at_down png props s canvas ctx d evs :
  readOnly props = false ->
  canvasRef s = Some canvas ->
  context2d canvas = Some ctx ->
  lineWidth s = 3%float ->
  is_down d = true ->
  forallb (fun ev => is_move ev || is_tool ev) evs = true ->
  forallb well_formed (d :: evs) = true ->
  exists canvas' ops,
    canvasRef (run png props (d :: evs) s) = Some canvas'
    /\ painted canvas canvas' ops
    /\ List.length ops = List.length (filter is_move evs)
    /\ Forall (rendered_with (tool_color s) (tool_width s)) ops.
Proof.
  intros Hro Hc Hctx Hlw Hd Hevs Hwf.
  cbn [forallb] in Hwf. apply andb_prop in Hwf as [Hwd Hwf].
  assert (Hvalid : valid_width (tool_width s) = true).
  { unfold tool_width. rewrite Hlw. now destruct (isEraser s). }
  destruct (down_sets_style png props Hro d s canvas ctx Hc Hctx Hd Hwd Hvalid)
    as (c1 & Hc1 & Hdr1 & Hbm1 & Hst1).
  destruct (moves_and_tools_paint_styled png props evs _ c1 _ _
              Hro Hc1 Hst1 Hdr1 Hevs Hwf)
    as (c2 & ops & Hc2 & Hbm2 & Hlen & Hall).
  exists c2, ops. rewrite run_cons. unfold painted in *.
  rewrite Hbm2, Hbm1. auto.
Qed.

(** X3. Whatever the props, the state and the events, every string the
    component passes to [onSave] is the empty sentinel or a data URL. *)
Theorem onSave_receives_sentinel_or_data_url png props evs : forall s,
  exists calls,
    emitted s (run png props evs s) calls
    /\ forallb snapshotString calls = true.
Proof.
  induction evs as [|ev evs IH]; intros s.
  - exists []. unfold emitted. cbn. now rewrite app_nil_r.
  - destruct (IH (step png props s ev)) as (calls & Hem & Hok).
    exists (emission png props s ev ++ calls). unfold emitted in *.
    rewrite run_cons, Hem, step_onSave, app_assoc. split; [reflexivity|].
    rewrite forallb_app, Hok, andb_true_r.
    unfold emission, toDataURL.
    destruct (readOnly props); [reflexivity|].
    destruct ev; try reflexivity;
      try (destruct (canvasRef s) as [c|]; [|reflexivity];
           destruct ((width c =? 0) || (height c =? 0))%Z; reflexivity).
    now destruct (unavailable s).
Qed.

(** X4. With [readOnly] false and the render target available, a run of any
    events calls [onSave] exactly once for each pointer-up, pointer-leave,
    touch-end and clear in it, and for nothing else. *)
Theorem one_call_per_finalize_or_clear png props evs : forall s,
  readOnly props = false ->
  unavailable s = false ->
  exists calls,
    emitted s (run png props evs s) calls
    /\ List.length calls = List.length (filter is_emitting evs).
Proof.
  induction evs as [|ev evs IH]; intros s Hro Hav.
  - exists []. unfold emitted. cbn. now rewrite app_nil_r.
  - destruct (IH (step png props s ev) Hro
                 (step_available png props ev s Hav)) as (calls & Hem & Hlen).
    exists (emission png props s ev ++ calls). unfold emitted in *.
    rewrite run_cons, Hem, step_onSave, app_assoc. split; [reflexivity|].
    rewrite length_app, Hlen. cbn [filter].
    unfold emission. rewrite Hro, Hav.
    unfold unavailable in Hav.
    destruct (canvasRef s) as [c|]; [|discriminate].
    destruct ev; reflexivity.
Qed.

(** X5. A run of the mount effect on a mounted canvas with its container
    resets the canvas: everything painted so far is gone and the context, if
    there is one, is back to an empty path, black at width 1, with round caps
    and joins; the session, the tool state and the [onSave] calls are kept.
    When that happens during a stroke ([readOnly] false), the next move that
    carries a point is painted black at width 1, not in the stroke's tool. *)
Theorem mount_effect_resets_canvas png props s canvas container :
  canvasRef s = Some canvas ->
  containerRef s = Some container ->
  let s' := step png props s EffectRun in
  exists canvas',
    canvasRef s' = Some canvas'
    /\ bitmap canvas' = []
    /\ session s' = session s
    /\ tool_color s' = tool_color s /\ tool_width s' = tool_width s
    /\ emitted s s' []
    /\ (forall ctx, context2d canvas = Some ctx ->
        exists ctx',
          context2d canvas' = Some ctx'
          /\ path ctx' = []
          /\ strokeStyle ctx' = "#000000" /\ ctx_lineWidth ctx' = 1%float
          /\ lineCap ctx' = "round" /\ lineJoin ctx' = "round")
    /\ (forall ctx m,
        context2d canvas = Some ctx -> readOnly props = false ->
        session s = DRAWING -> is_move m = true -> well_formed m = true ->
        exists canvas'' op,
          canvasRef (step png props s' m) = Some canvas''
          /\ bitmap canvas'' = [op]
          /\ rendered_with "#000000" 1%float op).
Proof.
  intros Hc Hk s'.
  assert (Hs' : exists canvas',
             canvasRef s' = Some canvas' /\ bitmap canvas' = []
             /\ isDrawing s' = isDrawing s /\ color s' = color s
             /\ lineWidth s' = lineWidth s /\ isEraser s' = isEraser s
             /\ onSave s' = onSave s
             /\ (forall ctx, context2d canvas = Some ctx ->
                 exists ctx',
                   context2d canvas' = Some ctx'
                   /\ path ctx' = []
                   /\ strokeStyle ctx' = "#000000"
                   /\ ctx_lineWidth ctx' = 1%float
                   /\ lineCap ctx' = "round" /\ lineJoin ctx' = "round")).
  { subst s'. unfold_handlers. cbn. rewrite Hc, Hk. cbn.
    unfold_canvas. cbn.
    destruct (context2d canvas) as [ctx0|] eqn:Hctx0; cbn.
    - destruct (CanvasAPI.finite2 _ _);
        destruct (initialImage props) as [src|]; cbn;
        try destruct (JS.truthy_str src); cbn;
        (eexists; repeat split; try reflexivity;
         intros ctx _; eexists; repeat split; reflexivity).
    - eexists; repeat split; try reflexivity. intros ctx Hctx. discriminate. }
  destruct Hs' as (canvas' & Hc' & Hbm & Hdr & Hcol & Hlw & Her & Hsave & Hctx').
  exists canvas'. unfold session, tool_color, tool_width, emitted.
  rewrite Hdr, Hcol, Hlw, Her, Hsave, app_nil_r.
  repeat split; auto.
  intros ctx m Hctx Hro Hdrawing Hm Hwf.
  destruct (Hctx' ctx Hctx) as (ctx' & Hctx1 & _ & Hstyle & Hwidth & _).
  assert (Hst : styled "#000000" 1%float canvas').
  { exists ctx'. auto. }
  assert (Hdr' : isDrawing s' = true).
  { rewrite Hdr. destruct (isDrawing s); [reflexivity|discriminate]. }
  destruct (move_paints_styled png props Hro m s' canvas' _ _
              Hc' Hst Hdr' Hm Hwf)
    as (c1 & op & Hc1 & _ & _ & Hbm1 & Hop).
  exists c1, op. rewrite Hbm1, Hbm. auto.
Qed.

Section Decode.

Variable png_base64 : RasterImage -> string.
Variable props : CanvasProps.

(** Pointer events and tool buttons keep the container and the images the
    component waits for. *)
Lemma step_keeps_pending ev s :
  is_pointer ev || is_tool ev = true ->
  pendingImages (step png_base64 props s ev) = pendingImages s
  /\ containerRef (step png_base64 props s ev) = containerRef s.
Proof.
  intros Hev. destruct ev; try discriminate; handler; auto.
Qed.

Lemma run_keeps_pending evs : forall s,
  forallb (fun ev => is_pointer ev || is_tool ev) evs = true ->
  pendingImages (run png_base64 props evs s) = pendingImages s
  /\ containerRef (run png_base64 props evs s) = containerRef s.
Proof.
  induction evs as [|ev evs IH]; intros s Hevs; [auto|].
  cbn [forallb] in Hevs. apply andb_prop in Hevs as [Hev Hevs].
  rewrite run_cons. destruct (IH (step png_base64 props s ev) Hevs) as [-> ->].
  now apply step_keeps_pending.
Qed.

Lemma run_available evs : forall s,
  unavailable s = false ->
  unavailable (run png_base64 props evs s) = false.
Proof.
  induction evs as [|ev evs IH]; intros s Hav; [assumption|].
  rewrite run_cons. apply IH. now apply step_available.
Qed.

End Decode.

(** X6. The initial image is painted when it loads, over whatever was drawn
    meanwhile: with a non-empty [initialImage], an available context, nothing
    pending and a container of finite size, the mount effect followed by any
    pointer events and tool buttons and then by the load of the image leaves
    the bitmap as it was before the load plus one draw of that image at
    (0, 0) over the client size of the container; nothing is pending any
    more. *)
Theorem initial_image_painted_over_strokes
    png props s canvas ctx container src evs :
  initialImage props = Some src ->
  src <> "" ->
  canvasRef s = Some canvas ->
  context2d canvas = Some ctx ->
  containerRef s = Some container ->
  pendingImages s = [] ->
  CanvasAPI.finite2 (clientWidth container) (clientHeight container) = true ->
  forallb (fun ev => is_pointer ev || is_tool ev) evs = true ->
  let s1 := run png props (EffectRun :: evs) s in
  let s2 := step png props s1 (ImageLoad 0) in
  pendingImages s1 = [src]
  /\ pendingImages s2 = []
  /\ exists c1 c2 tr,
       canvasRef s1 = Some c1 /\ canvasRef s2 = Some c2
       /\ bitmap c2
          = bitmap c1
            ++ [DrawImage src 0%float 0%float
                  (clientWidth container) (clientHeight container) tr].
Proof.
  intros Hsrc Hne Hc Hctx Hk Hpend Hfin Hevs.
  assert (Hav : unavailable s = false).
  { unfold unavailable, CanvasAPI.getContext. now rewrite Hc, Hctx. }
  assert (Hmount : pendingImages (step png props s EffectRun) = [src]
                   /\ containerRef (step png props s EffectRun)
                      = Some container).
  { unfold_handlers. cbn. rewrite Hc, Hk. cbn. unfold_canvas. cbn.
    rewrite Hctx, Hsrc, Hpend. cbn.
    destruct src; [congruence|]. cbn. auto. }
  destruct Hmount as [Hp0 Hk0].
  destruct (run_keeps_pending png props evs (step png props s EffectRun) Hevs)
    as [Hp1 Hk1].
  rewrite Hp0 in Hp1. rewrite Hk0 in Hk1.
  pose proof (run_available png props (EffectRun :: evs) s Hav) as Hav1.
  rewrite <- run_cons in Hp1, Hk1.
  intros s1 s2. fold s1 in Hp1, Hk1, Hav1. clearbody s1.
  unfold unavailable, CanvasAPI.getContext in Hav1.
  destruct (canvasRef s1) as [c1|] eqn:Hc1; [|discriminate].
  destruct (context2d c1) as [ctx1|] eqn:Hctx1; [|discriminate].
  split; [assumption|].
  assert (Hload : s2
            = {| isDrawing := isDrawing s1; color := color s1;
                 lineWidth := lineWidth s1; isEraser := isEraser s1;
                 canvasRef :=
                   Some (CanvasAPI.drawImage src 0%float 0%float
                           (clientWidth container) (clientHeight container)
                           c1);
                 containerRef := containerRef s1;
                 devicePixelRatio := devicePixelRatio s1;
                 pendingImages := [];
                 onSave := onSave s1 |}).
  { subst s2. unfold step, dispatch, imgOnload, bind, get.
    rewrite Hp1, Hc1, Hk1. cbn. now rewrite Hk1. }
  rewrite Hload. split; [reflexivity|].
  exists c1. eexists. exists (transform ctx1).
  split; [reflexivity|]. split; [reflexivity|].
  unfold CanvasAPI.drawImage. rewrite Hctx1, Hfin. reflexivity.
Qed.

Section Bitmap.

Variable png_base64 : RasterImage -> string.
Variable props : CanvasProps.

Ltac same_some :=
  try discriminate;
  repeat match goal with
         | H : Some _ = Some _ |- _ => inversion H; subst; clear H
         | H : ?a = Some ?u, H' : ?a = Some ?v |- _ =>
             rewrite H in H'; inversion H'; subst; clear H'
         | H : ?a = Some _, H' : ?a = None |- _ =>
             rewrite H in H'; discriminate
         end.

(** Down, up, leave and the tool buttons never paint. *)
Lemma step_surfaceOps_kept ev s :
  is_down ev || is_up ev || is_tool ev = true \/ ev = MouseLeave ->
  surfaceOps (step png_base64 props s ev) = surfaceOps s.
Proof.
  unfold surfaceOps.
  intros [Hev | ->]; [destruct ev; try discriminate|];
    unfold_handlers; cbn; unfold_canvas; cbn; split_tests; same_some; cbn; cbn;
    reflexivity.
Qed.

(** A move paints nothing or one stroke, and only with read-only off. *)
Lemma step_surfaceOps_move ev s :
  is_move ev = true ->
  surfaceOps (step png_base64 props s ev) = surfaceOps s
  \/ (readOnly props = false
      /\ exists sub col w cap join tr,
           surfaceOps (step png_base64 props s ev)
           = surfaceOps s ++ [Stroke sub col w cap join tr]).
Proof.
  unfold surfaceOps.
  intros Hev; destruct ev; try discriminate;
    unfold_handlers; cbn; unfold_canvas; cbn; split_tests; same_some; cbn;
    try (left; reflexivity);
    (right; split;
     [ match goal with
       | H : _ || readOnly props = false |- _ =>
           now apply orb_false_elim in H as [_ H]
       end
     | cbn; repeat eexists ]).
Qed.

(** Clear paints nothing or one cleared rectangle, and only with read-only
    off. *)
Lemma step_surfaceOps_clear s :
  surfaceOps (step png_base64 props s ClickClear) = surfaceOps s
  \/ (readOnly props = false
      /\ exists rx ry rw rh tr,
           surfaceOps (step png_base64 props s ClickClear)
           = surfaceOps s ++ [ClearRect rx ry rw rh tr]).
Proof.
  unfold surfaceOps.
  unfold_handlers; cbn; unfold_canvas; cbn; split_tests; same_some; cbn;
    try (left; reflexivity);
    (right; split; [reflexivity|]; cbn; repeat eexists).
Qed.

(** The mount effect paints nothing: it leaves the bitmap or empties it. *)
Lemma step_surfaceOps_effect s :
  surfaceOps (step png_base64 props s EffectRun) = surfaceOps s
  \/ surfaceOps (step png_base64 props s EffectRun) = [].
Proof.
  unfold surfaceOps.
  unfold_handlers; cbn; unfold_canvas; cbn; split_tests; same_some; cbn;
    try (left; reflexivity); right; reflexivity.
Qed.

(** The load of an image paints nothing or that image, and only when it was
    pending. *)
Lemma step_surfaceOps_load n s :
  surfaceOps (step png_base64 props s (ImageLoad n)) = surfaceOps s
  \/ exists src dx dy dw dh tr,
       nth_error (pendingImages s) n = Some src
       /\ surfaceOps (step png_base64 props s (ImageLoad n))
          = surfaceOps s ++ [DrawImage src dx dy dw dh tr].
Proof.
  unfold surfaceOps.
  unfold_handlers; cbn; unfold_canvas; cbn.
  destruct (nth_error (pendingImages s) n) as [src|]; [|now left].
  destruct (canvasRef s) as [c|] eqn:Hc; [|left; cbn; now rewrite Hc].
  destruct (containerRef s) as [k|]; [|left; cbn; now rewrite Hc]. cbn.
  destruct (context2d c); [|now left].
  destruct (CanvasAPI.finite2 _ _); [|now left].
  right. cbn. repeat eexists.
Qed.

(** All events together: the bitmap is kept, emptied, or grows by one
    operation, which is ink only with read-only off and an image only when
    one was pending. *)
Lemma step_surfaceOps ev s :
  surfaceOps (step png_base64 props s ev) = surfaceOps s
  \/ surfaceOps (step png_base64 props s ev) = []
  \/ exists op,
       surfaceOps (step png_base64 props s ev) = surfaceOps s ++ [op]
       /\ ((readOnly props = false /\ is_DrawImage op = false)
           \/ (is_DrawImage op = true /\ pendingImages s <> [])).
Proof.
  destruct ev;
    try (left; apply step_surfaceOps_kept; auto; fail).
  - destruct (step_surfaceOps_move (MouseMove clientX clientY) s eq_refl)
      as [H | (Hro & sub & col & w & cap & join & tr & H)]; eauto 10.
  - destruct (step_surfaceOps_move (TouchMove touches) s eq_refl)
      as [H | (Hro & sub & col & w & cap & join & tr & H)]; eauto 10.
  - destruct (step_surfaceOps_clear s)
      as [H | (Hro & rx & ry & rw & rh & tr & H)]; eauto 10.
  - destruct (step_surfaceOps_effect s) as [H | H]; auto.
  - destruct (step_surfaceOps_load n s)
      as [H | (src & dx & dy & dw & dh & tr & Hn & H)]; auto.
    right; right. eexists. split; [exact H|]. right. split; [reflexivity|].
    intros Hnil. rewrite Hnil in Hn. now destruct n.
Qed.

(** With read-only on, the session, the tool state and the [onSave] calls
    are out of reach of every event. *)
Lemma readOnly_step_frame ev s :
  readOnly props = true ->
  isDrawing (step png_base64 props s ev) = isDrawing s
  /\ color (step png_base64 props s ev) = color s
  /\ lineWidth (step png_base64 props s ev) = lineWidth s
  /\ isEraser (step png_base64 props s ev) = isEraser s
  /\ onSave (step png_base64 props s ev) = onSave s.
Proof.
  intros Hro. destruct ev; unfold_handlers; rewrite ?Hro; cbn;
    rewrite ?orb_true_r; cbn; split_tests; auto.
Qed.

(** Without an initial image the mount effect waits for nothing, and no
    other handler adds to the pending images. *)
Lemma step_nothing_pending ev s :
  initialImage props = None \/ initialImage props = Some "" ->
  pendingImages s = [] ->
  pendingImages (step png_base64 props s ev) = [].
Proof.
  intros Himg Hp.
  destruct ev; unfold_handlers; cbn; rewrite ?Hp; cbn;
    try (destruct Himg as [-> | ->]); split_tests; auto.
  now rewrite firstn_nil.
Qed.

End Bitmap.

(** X7. Without an initial image (the prop absent or the empty string) and
    with nothing pending, no run of events ever starts a decode or paints an
    image: the pending list stays empty and every image operation in the
    bitmap was there before the run. *)
Theorem without_initial_image_nothing_is_decoded png props evs : forall s,
  initialImage props = None \/ initialImage props = Some "" ->
  pendingImages s = [] ->
  pendingImages (run png props evs s) = []
  /\ forall op, In op (surfaceOps (run png props evs s)) ->
       is_DrawImage op = true -> In op (surfaceOps s).
Proof.
  induction evs as [|ev evs IH]; intros s Himg Hp; [auto|].
  rewrite run_cons.
  destruct (IH (step png props s ev) Himg
               (step_nothing_pending png props ev s Himg Hp)) as [Hp' Hops].
  split; [assumption|]. intros op Hin Himage.
  specialize (Hops op Hin Himage).
  destruct (step_surfaceOps png props ev s)
    as [H | [H | (op' & H & [[_ Hno] | [_ Hpend]])]];
    rewrite H in Hops.
  - assumption.
  - destruct Hops.
  - apply in_app_or in Hops as [Hold | [<- | []]]; [assumption|congruence].
  - congruence.
Qed.

(** X8. With [readOnly] true no event at all, pointer, toolbar, mount effect
    or image load, changes the session, the tool or the [onSave] calls, and
    nothing but loaded images is ever added to the bitmap: every operation
    in it after a run was there before or is a drawn image. *)
Theorem readOnly_surface_is_never_inked png props evs : forall s,
  readOnly props = true ->
  let s' := run png props evs s in
  session s' = session s
  /\ tool_color s' = tool_color s /\ tool_width s' = tool_width s
  /\ emitted s s' []
  /\ forall op, In op (surfaceOps s') ->
       In op (surfaceOps s) \/ is_DrawImage op = true.
Proof.
  induction evs as [|ev evs IH]; intros s Hro; cbv zeta.
  - unfold emitted, run. cbn [fold_left]. rewrite app_nil_r.
    repeat split; auto.
  - rewrite run_cons.
    destruct (IH (step png props s ev) Hro) as (Hses & Hcol & Hw & Hem & Hops).
    destruct (readOnly_step_frame png props ev s Hro)
      as (Hdr & Hc & Hlw & Her & Hsave).
    unfold session, tool_color, tool_width, emitted in *.
    rewrite Hses, Hcol, Hw, Hem, Hdr, Hc, Hlw, Her, Hsave.
    repeat split; auto.
    intros op Hin. destruct (Hops op Hin) as [Hold | Himage]; [|auto].
    destruct (step_surfaceOps png props ev s)
      as [H | [H | (op' & H & [[Hno _] | [Himage _]])]];
      rewrite H in Hold.
    + auto.
    + destruct Hold.
    + congruence.
    + apply in_app_or in Hold as [Hold | [<- | []]]; auto.
Qed.

(** X9. In any state the component reaches with [readOnly] false, also with
    the eraser active, a colour button stores its colour and switches the
    eraser off, and the next stroke on an available context is painted in
    that colour at the default width 3. *)
Theorem colour_button_selects_pen
    png props evs0 c0 k dpr sw canvas ctx d ms :
  readOnly props = false ->
  let s := run png props evs0 (firstRender c0 k dpr) in
  canvasRef s = Some canvas ->
  context2d canvas = Some ctx ->
  is_down d = true ->
  forallb is_move ms = true ->
  forallb well_formed (d :: ms) = true ->
  let s1 := step png props s (ClickSwatch sw) in
  color s1 = hex sw
  /\ isEraser s1 = false
  /\ session s1 = session s
  /\ exists canvas' ops,
       canvasRef (run png props (d :: ms) s1) = Some canvas'
       /\ painted canvas canvas' ops
       /\ List.length ops = List.length ms
       /\ Forall (rendered_with (hex sw) 3%float) ops.
Proof.
  intros Hro s Hc Hctx Hd Hms Hwf s1.
  destruct (reachable_pen png props evs0 (firstRender c0 k dpr) eq_refl
              (ex_intro _ Indigo950 eq_refl)) as [Hw _].
  fold s in Hw.
  assert (Hs1 : color s1 = hex sw /\ isEraser s1 = false
                /\ isDrawing s1 = isDrawing s
                /\ canvasRef s1 = Some canvas
                /\ lineWidth s1 = 3%float).
  { subst s1. clearbody s. unfold_handlers. rewrite Hro. cbn. auto. }
  destruct Hs1 as (Hcol1 & Her1 & Hdr1 & Hc1 & Hw1).
  unfold session. rewrite Hdr1. repeat (split; [auto|]).
  pose proof (stroke_uses_tool png props Hro d ms s1 canvas ctx
                Hc1 Hctx Hd Hms Hwf) as H.
  unfold tool_color, tool_width in H. rewrite Her1, Hcol1, Hw1 in H.
  apply H. reflexivity.
Qed.

Section Path.

Variable png_base64 : RasterImage -> string.
Variable props : CanvasProps.
Hypothesis editable_props : readOnly props = false.

(** The local point of an event depends on the canvas through its bounding
    rectangle only. *)
Lemma finitePoint_rect c1 c2 ev :
  boundingClientRect c1 = boundingClientRect c2 ->
  finitePoint c1 ev = finitePoint c2 ev.
Proof.
  intros Hrect. unfold finitePoint, localPoint, getCoordinates.
  destruct (inputOf ev) as [[cx cy|[|t ts]]|]; cbn; now rewrite ?Hrect.
Qed.

(** A move with a finite point during a stroke: the point joins the newest
    subpath and the whole path is stroked. *)
Lemma move_extends_path m s c p col w cap join tr sub :
  isDrawing s = true ->
  canvasRef s = Some c ->
  context2d c
  = Some {| strokeStyle := col; ctx_lineWidth := w; lineCap := cap;
            lineJoin := join; transform := tr; path := [sub] |} ->
  is_move m = true ->
  finitePoint c m = Some p ->
  isDrawing (step png_base64 props s m) = true
  /\ canvasRef (step png_base64 props s m)
     = Some {| width := width c; height := height c;
               boundingClientRect := boundingClientRect c;
               context2d :=
                 Some {| strokeStyle := col; ctx_lineWidth := w;
                         lineCap := cap; lineJoin := join; transform := tr;
                         path := [p :: sub] |};
               bitmap := bitmap c
                         ++ [Stroke [p :: sub] col w cap join tr] |}.
Proof.
  intros Hdr Hc Hctx Hm Hp. unfold finitePoint in Hp.
  destruct (inputOf m) as [e|] eqn:He; [|discriminate].
  destruct (localPoint e c) as [q|] eqn:Hq; [|discriminate].
  destruct (CanvasAPI.finite2 (x q) (y q)) eqn:Hfin; [|discriminate].
  injection Hp as ->.
  assert (Hdisp : dispatch png_base64 props m = draw props e).
  { destruct m; try discriminate; cbn in He; now injection He as <-. }
  unfold step. rewrite Hdisp.
  rewrite (draw_available props e s c _ editable_props Hdr Hc Hctx), Hq.
  cbn [snd isDrawing canvasRef]. split; [reflexivity|].
  unfold CanvasAPI.stroke, CanvasAPI.lineTo, CanvasAPI.withContext,
    CanvasAPI.paint.
  cbn. rewrite Hctx. cbn. rewrite Hfin. destruct p as [px py]. reflexivity.
Qed.

Lemma moves_extend_path ms : forall pts s c col w cap join tr sub,
  isDrawing s = true ->
  canvasRef s = Some c ->
  context2d c
  = Some {| strokeStyle := col; ctx_lineWidth := w; lineCap := cap;
            lineJoin := join; transform := tr; path := [sub] |} ->
  forallb is_move ms = true ->
  map (finitePoint c) ms = map Some pts ->
  exists c',
    canvasRef (run png_base64 props ms s) = Some c'
    /\ painted c c'
         (map (fun k => Stroke [rev (firstn (S k) pts) ++ sub]
                               col w cap join tr)
              (seq 0 (List.length ms))).
Proof.
  induction ms as [|m ms IH];
    intros pts s c col w cap join tr sub Hdr Hc Hctx Hms Hpts.
  - exists c. unfold painted. cbn. now rewrite app_nil_r.
  - destruct pts as [|p pts]; [discriminate|].
    cbn [map] in Hpts. injection Hpts as Hp Hpts.
    cbn [forallb] in Hms. apply andb_prop in Hms as [Hm Hms].
    destruct (move_extends_path m s c p col w cap join tr sub
                Hdr Hc Hctx Hm Hp) as [Hdr1 Hc1].
    rewrite run_cons.
    match type of Hc1 with _ = Some ?c1 =>
      destruct (IH pts _ c1 col w cap join tr (p :: sub) Hdr1 Hc1 eq_refl Hms)
        as (c' & Hc' & Hbm)
    end.
    { rewrite <- Hpts. apply map_ext. intros ev.
      now apply finitePoint_rect. }
    exists c'. split; [assumption|]. unfold painted in *. rewrite Hbm.
    cbn [bitmap List.length seq map]. rewrite <- app_assoc. cbn [app].
    f_equal. f_equal; try reflexivity.
    rewrite <- seq_shift, map_map.
    apply map_ext. intros k. cbn [firstn rev]. now rewrite <- app_assoc.
Qed.

End Path.

(** X10. [draw] never begins a new path, so every move of a stroke strokes
    the whole path again: with [readOnly] false, an available context and the
    default pen width, when the down event and the moves all map to finite
    local points, the k-th move paints, in the tool of the stroke, the single
    subpath through the down point and the first k move points. *)
Theorem each_move_repaints_the_whole_path
    png props s canvas ctx d ms p0 pts :
  readOnly props = false ->
  canvasRef s = Some canvas ->
  context2d canvas = Some ctx ->
  lineWidth s = 3%float ->
  is_down d = true ->
  forallb is_move ms = true ->
  finitePoint canvas d = Some p0 ->
  map (finitePoint canvas) ms = map Some pts ->
  exists canvas',
    canvasRef (run png props (d :: ms) s) = Some canvas'
    /\ painted canvas canvas'
         (map (fun k => Stroke [rev (firstn (2 + k) (p0 :: pts))]
                               (tool_color s) (tool_width s)
                               (lineCap ctx) (lineJoin ctx) (transform ctx))
              (seq 0 (List.length ms))).
Proof.
  intros Hro Hc Hctx Hlw Hd Hms Hp0 Hpts.
  assert (Hvalid : valid_width (tool_width s) = true).
  { unfold tool_width. rewrite Hlw. now destruct (isEraser s). }
  unfold finitePoint in Hp0.
  destruct (inputOf d) as [e|] eqn:He; [|discriminate].
  destruct (localPoint e canvas) as [q|] eqn:Hq; [|discriminate].
  destruct (CanvasAPI.finite2 (x q) (y q)) eqn:Hfin; [|discriminate].
  injection Hp0 as ->.
  assert (Hdisp : dispatch png props d = startDrawing props e).
  { destruct d; try discriminate; cbn in He; now injection He as <-. }
  pose (c1 := {| width := width canvas; height := height canvas;
                 boundingClientRect := boundingClientRect canvas;
                 context2d :=
                   Some {| strokeStyle := tool_color s;
                           ctx_lineWidth := tool_width s;
                           lineCap := lineCap ctx; lineJoin := lineJoin ctx;
                           transform := transform ctx; path := [[p0]] |};
                 bitmap := bitmap canvas |}).
  assert (Hdown : isDrawing (step png props s d) = true
                  /\ canvasRef (step png props s d) = Some c1).
  { unfold step. rewrite Hdisp.
    rewrite (startDrawing_available props e s canvas ctx Hro Hc Hctx), Hq.
    cbn [snd isDrawing canvasRef]. split; [reflexivity|].
    unfold CanvasAPI.set_lineWidth, CanvasAPI.set_strokeStyle,
      CanvasAPI.moveTo, CanvasAPI.beginPath, CanvasAPI.withContext.
    cbn. rewrite Hctx. cbn. rewrite Hfin. cbn.
    unfold valid_width in Hvalid. rewrite Hvalid.
    subst c1. destruct p0 as [px py]. reflexivity. }
  destruct Hdown as [Hdr1 Hc1].
  destruct (moves_extend_path png props Hro ms pts _ c1 _ _ _ _ _ [p0]
              Hdr1 Hc1 eq_refl Hms) as (c' & Hc' & Hbm).
  { rewrite <- Hpts. apply map_ext. intros ev.
    now apply finitePoint_rect. }
  exists c'. rewrite run_cons. split; [assumption|].
  unfold painted in *. rewrite Hbm. subst c1. cbn [bitmap].
  apply (f_equal (app (bitmap canvas))).
  apply map_ext. intros k.
  change (2 + k)%nat with (S (S k)). reflexivity.
Qed.

(** * The session and the render target *)

(** Only a down event on an available context, with read-only off, sets the
    drawing flag. *)
Lemma step_enters_drawing png props ev s :
  isDrawing (step png props s ev) = true ->
  isDrawing s = true \/ (unavailable s = false /\ readOnly props = false).
Proof.
  unfold unavailable.
  destruct ev; unfold_handlers; unfold CanvasAPI.getContext in *; cbn;
    destruct (readOnly props); cbn; rewrite ?orb_true_r, ?orb_false_r; cbn;
    split_tests; auto; try discriminate; try congruence.
Qed.

(** X20. A stroke is only ever in progress on an available render target: in
    every state the component reaches from its first render, whatever the
    events, the session is [IDLE], or the canvas is mounted with its 2D
    context and [readOnly] is false. *)
Theorem drawing_only_on_available_target png props evs c0 k dpr :
  let s := run png props evs (firstRender c0 k dpr) in
  session s = IDLE \/ (unavailable s = false /\ readOnly props = false).
Proof.
  cbv zeta.
  assert (Hgen : forall l s,
            session s = IDLE
            \/ (unavailable s = false /\ readOnly props = false) ->
            session (run png props l s) = IDLE
            \/ (unavailable (run png props l s) = false
                /\ readOnly props = false)).
  { induction l as [|ev l IH]; intros s Hs; [assumption|].
    rewrite run_cons. apply IH. unfold session in *.
    destruct (isDrawing (step png props s ev)) eqn:Hdr; [|now left].
    right. apply step_enters_drawing in Hdr as [Hdr | [Hav Hro]].
    - rewrite Hdr in Hs. destruct Hs as [Hs | [Hav Hro]]; [discriminate|].
      split; [now apply step_available|assumption].
    - split; [now apply step_available|assumption]. }
  apply Hgen. now left.
Qed.

(** * The surface inside the editor *)

Lemma sameImage_eq a b : sameImage a b = true <-> a = b.
Proof.
  destruct a as [u|], b as [v|]; cbn; try (split; congruence).
  rewrite String.eqb_eq. split; congruence.
Qed.

(** X11. In the editor every finished stroke makes the surface reload
    itself.  In [DRAW] mode, with the canvas and its context available, a
    finalize event (up, leave, touch end) at time [now] stores the encoding
    of the canvas in [note.drawingData] and stamps [updatedAt]; when that
    encoding is not what the note already held, the changed [initialImage]
    runs the mount effect again: the bitmap is emptied and the encoding is
    queued for decoding, and once it loads the bitmap holds exactly one
    drawn image, that encoding, over the client size of the container.  When
    the note already held that encoding the canvas is left as it is. *)
Theorem editor_stroke_reloads_surface
    png now now' ed c canvas ctx container u :
  mode ed = DRAW ->
  surface ed = Some c ->
  canvasRef c = Some canvas ->
  context2d canvas = Some ctx ->
  containerRef c = Some container ->
  CanvasAPI.finite2 (clientWidth container) (clientHeight container) = true ->
  u = MouseUp \/ u = MouseLeave \/ u = TouchEnd ->
  let url := toDataURL png canvas in
  let ed1 := surfaceEvent png now u ed in
  let ed2 := surfaceEvent png now'
               (ImageLoad (List.length (pendingImages c))) ed1 in
  drawingData (note ed1) = Some url
  /\ updatedAt (note ed1) = now
  /\ (drawingData (note ed) = Some url ->
      exists c1, surface ed1 = Some c1 /\ canvasRef c1 = Some canvas)
  /\ (drawingData (note ed) <> Some url ->
      (exists c1,
         surface ed1 = Some c1
         /\ surfaceOps c1 = []
         /\ pendingImages c1 = pendingImages c ++ [url]
         /\ session c1 = IDLE
         /\ emitted c c1 [url])
      /\ note ed2 = note ed1
      /\ exists c2 tr,
           surface ed2 = Some c2
           /\ surfaceOps c2
              = [DrawImage url 0%float 0%float (clientWidth container)
                   (clientHeight container) tr]
           /\ pendingImages c2 = pendingImages c).
Proof.
  intros Hmode Hsurf Hc Hctx Hk Hfin Hu url ed1 ed2.
  assert (Hstop : step png (surfaceProps (note ed)) c u
                  = {| isDrawing := false; color := color c;
                       lineWidth := lineWidth c; isEraser := isEraser c;
                       canvasRef := Some canvas;
                       containerRef := containerRef c;
                       devicePixelRatio := devicePixelRatio c;
                       pendingImages := pendingImages c;
                       onSave := onSave c ++ [url] |}).
  { unfold step.
    destruct Hu as [-> | [-> | ->]]; cbn [dispatch];
      now rewrite (stopDrawing_mounted png (surfaceProps (note ed)) c canvas
                     eq_refl Hc). }
  assert (Hcalls : skipn (List.length (onSave c)) (onSave c ++ [url]) = [url]).
  { rewrite skipn_app, skipn_all, Nat.sub_diag. reflexivity. }
  assert (Hed1 : ed1
            = {| note := saveDrawing now (note ed) url; mode := DRAW;
                 surface :=
                   Some (if sameImage (drawingData (note ed)) (Some url)
                         then step png (surfaceProps (note ed)) c u
                         else step png
                                (surfaceProps (saveDrawing now (note ed) url))
                                (step png (surfaceProps (note ed)) c u)
                                EffectRun) |}).
  { subst ed1. unfold surfaceEvent. rewrite Hmode, Hsurf.
    destruct Hu as [-> | [-> | ->]]; cbv zeta; rewrite Hstop;
      cbn [onSave]; rewrite Hcalls; reflexivity. }
  split; [now rewrite Hed1|]. split; [now rewrite Hed1|]. split.
  - intros Hsame. rewrite Hed1. cbn [surface].
    apply sameImage_eq in Hsame. rewrite Hsame, Hstop.
    eexists; split; reflexivity.
  - intros Hnew.
    assert (Hdiff : sameImage (drawingData (note ed)) (Some url) = false).
    { destruct (sameImage _ _) eqn:Hs; [|reflexivity].
      apply sameImage_eq in Hs. contradiction. }
    rewrite Hdiff, Hstop in Hed1.
    set (wiped := step png (surfaceProps (saveDrawing now (note ed) url))
                       _ EffectRun) in Hed1.
    assert (Hurl : JS.truthy_str url = true).
    { pose proof (toDataURL_nonempty png canvas) as Hne. fold url in Hne.
      destruct url; [congruence|reflexivity]. }
    assert (Hwiped : exists canvas1 ctx1,
               canvasRef wiped = Some canvas1
               /\ context2d canvas1 = Some ctx1
               /\ bitmap canvas1 = []
               /\ pendingImages wiped = pendingImages c ++ [url]
               /\ containerRef wiped = Some container
               /\ isDrawing wiped = false
               /\ onSave wiped = onSave c ++ [url]).
    { subst wiped. unfold_handlers. cbn. rewrite Hk. cbn.
      unfold_canvas. cbn. rewrite Hctx. cbn. rewrite Hurl.
      destruct (CanvasAPI.finite2 _ _); cbn; rewrite ?Hk;
        do 2 eexists; repeat split; reflexivity. }
    destruct Hwiped
      as (canvas1 & ctx1 & Hc1 & Hctx1 & Hbm1 & Hp1 & Hk1 & Hdr1 & Hsave1).
    split.
    { exists wiped. rewrite Hed1. unfold surfaceOps, session, emitted.
      rewrite Hc1, Hdr1. auto. }
    assert (Hload : step png (surfaceProps (note ed1)) wiped
                         (ImageLoad (List.length (pendingImages c)))
              = {| isDrawing := isDrawing wiped; color := color wiped;
                   lineWidth := lineWidth wiped; isEraser := isEraser wiped;
                   canvasRef :=
                     Some (CanvasAPI.drawImage url 0%float 0%float
                             (clientWidth container) (clientHeight container)
                             canvas1);
                   containerRef := containerRef wiped;
                   devicePixelRatio := devicePixelRatio wiped;
                   pendingImages := pendingImages c;
                   onSave := onSave wiped |}).
    { unfold step, dispatch, imgOnload, bind, get. cbv beta iota.
      rewrite Hp1. rewrite nth_error_app2 by apply le_n.
      rewrite Nat.sub_diag. cbn [nth_error]. rewrite Hc1, Hk1.
      unfold setCanvas, setPendingImages, modify. cbn [snd].
      rewrite firstn_app, firstn_all, Nat.sub_diag.
      cbn [firstn]. rewrite app_nil_r.
      replace (skipn (S (List.length (pendingImages c)))
                     (pendingImages c ++ [url])) with (@nil string).
      - cbn [isDrawing color lineWidth isEraser canvasRef containerRef
               devicePixelRatio pendingImages onSave].
        now rewrite app_nil_r, Hk1.
      - symmetry. apply skipn_all2. rewrite length_app. cbn. lia. }
    assert (Hed2 : ed2
              = {| note := note ed1; mode := DRAW;
                   surface :=
                     Some (step png (surfaceProps (note ed1)) wiped
                             (ImageLoad (List.length (pendingImages c)))) |}).
    { assert (Hmode1 : mode ed1 = DRAW) by now rewrite Hed1.
      assert (Hsurf1 : surface ed1 = Some wiped) by now rewrite Hed1.
      subst ed2. clearbody ed1. unfold surfaceEvent.
      rewrite Hmode1, Hsurf1. cbv zeta. rewrite Hload.
      cbn [onSave]. rewrite skipn_all. cbn [fold_left].
      unfold sameImage. cbn [surfaceProps initialImage].
      destruct (drawingData (note ed1)) as [v|]; [|reflexivity].
      now rewrite String.eqb_refl. }
    split; [now rewrite Hed2|].
    eexists. exists (transform ctx1). rewrite Hed2, Hload.
    split; [reflexivity|]. unfold surfaceOps. cbn [canvasRef pendingImages].
    unfold CanvasAPI.drawImage. rewrite Hctx1, Hfin. cbn. rewrite Hbm1. auto.
Qed.

(** X12. In the editor clear really blanks the surface.  In [DRAW] mode with
    the canvas and its context available, the clear button at time [now]
    stores the empty string in [note.drawingData] and stamps [updatedAt];
    unless the note already held the empty string, the changed
    [initialImage] runs the mount effect again, which empties the bitmap and,
    the prop being empty, queues no image. *)
Theorem editor_clear_blanks_surface png now ed c canvas ctx container :
  mode ed = DRAW ->
  surface ed = Some c ->
  canvasRef c = Some canvas ->
  context2d canvas = Some ctx ->
  containerRef c = Some container ->
  let ed1 := surfaceEvent png now ClickClear ed in
  drawingData (note ed1) = Some ""
  /\ updatedAt (note ed1) = now
  /\ (drawingData (note ed) <> Some "" ->
      exists c1,
        surface ed1 = Some c1
        /\ surfaceOps c1 = []
        /\ pendingImages c1 = pendingImages c
        /\ session c1 = session c
        /\ emitted c c1 [""])
  /\ (drawingData (note ed) = Some "" ->
      surface ed1 = Some (step png (surfaceProps (note ed)) c ClickClear)).
Proof.
  intros Hmode Hsurf Hc Hctx Hk ed1.
  set (cleared := step png (surfaceProps (note ed)) c ClickClear).
  assert (Hcleared : exists canvas1,
             canvasRef cleared = Some canvas1
             /\ context2d canvas1 = Some ctx
             /\ containerRef cleared = Some container
             /\ pendingImages cleared = pendingImages c
             /\ isDrawing cleared = isDrawing c
             /\ onSave cleared = onSave c ++ [""]).
  { subst cleared. unfold_handlers. cbn. rewrite Hc. cbn.
    unfold_canvas. rewrite Hctx. cbn.
    match goal with
    | |- context [if ?b then _ else _] => destruct b
    end; cbn; eexists; repeat split; try reflexivity; assumption. }
  destruct Hcleared as (canvas1 & Hc1 & Hctx1 & Hk1 & Hp1 & Hdr1 & Hsave1).
  assert (Hed1 : ed1
            = {| note := saveDrawing now (note ed) ""; mode := DRAW;
                 surface :=
                   Some (if sameImage (drawingData (note ed)) (Some "")
                         then cleared
                         else step png
                                (surfaceProps (saveDrawing now (note ed) ""))
                                cleared EffectRun) |}).
  { subst ed1. unfold surfaceEvent. rewrite Hmode, Hsurf. cbv zeta.
    fold cleared. rewrite Hsave1, skipn_app, skipn_all, Nat.sub_diag.
    reflexivity. }
  split; [now rewrite Hed1|]. split; [now rewrite Hed1|]. split.
  - intros Hnew.
    assert (Hdiff : sameImage (drawingData (note ed)) (Some "") = false).
    { destruct (sameImage _ _) eqn:Hs; [|reflexivity].
      apply sameImage_eq in Hs. contradiction. }
    rewrite Hdiff in Hed1. rewrite Hed1. eexists. split; [reflexivity|].
    clearbody cleared. clear Hed1.
    unfold surfaceOps, session, emitted.
    unfold_handlers. cbn. rewrite Hc1, Hk1. cbn.
    unfold_canvas. cbn. rewrite Hctx1. cbn. rewrite Hdr1. auto.
  - intros Hsame. rewrite Hed1. cbn [surface].
    apply sameImage_eq in Hsame. now rewrite Hsame.
Qed.


(** * The note list *)

Section Sorting.

Context {A : Type} (compare : A -> A -> Z).

Lemma sortInsert_perm a l : Permutation (sortInsert compare a l) (a :: l).
Proof.
  induction l as [|b l IH]; cbn; [reflexivity|].
  destruct (compare a b <=? 0)%Z; [reflexivity|].
  rewrite IH. apply perm_swap.
Qed.

Lemma Array_sort_perm l : Permutation (Array_sort compare l) l.
Proof.
  induction l as [|a l IH]; cbn; [reflexivity|].
  rewrite sortInsert_perm. now constructor.
Qed.

(** An element is inserted in front of the first element it does not have to
    follow: the elements with another key keep their places among
    themselves, and it comes before those with its own key. *)
Lemma filter_sortInsert (keep : A -> bool) a l :
  (forall b, keep a = true -> keep b = true -> (compare a b <=? 0)%Z = true) ->
  filter keep (sortInsert compare a l) = filter keep (a :: l).
Proof.
  intros Hkey. induction l as [|b l IH]; [reflexivity|].
  cbn [sortInsert]. destruct (compare a b <=? 0)%Z eqn:Hab; [reflexivity|].
  cbn [filter] in *. rewrite IH.
  destruct (keep a) eqn:Ha; [|reflexivity].
  destruct (keep b) eqn:Hb; [|reflexivity].
  rewrite (Hkey b eq_refl Hb) in Hab. discriminate.
Qed.

End Sorting.

Section NoteListProperties.

Variable toLowerCase : string -> string.

Lemma sortInsert_newest a l :
  StronglySorted (fun x y => createdAt y <= createdAt x)%Z l ->
  StronglySorted (fun x y => createdAt y <= createdAt x)%Z
                 (sortInsert newestFirst a l).
Proof.
  induction 1 as [|b l Hsorted IH Hall]; cbn.
  - repeat constructor.
  - unfold newestFirst at 1.
    destruct (createdAt b - createdAt a <=? 0)%Z eqn:Hab.
    + apply Z.leb_le in Hab. constructor.
      * now constructor.
      * constructor; [lia|].
        eapply Forall_impl; [|exact Hall]. cbn. intros c Hc. lia.
    + apply Z.leb_gt in Hab. constructor; [assumption|].
      eapply Permutation_Forall.
      * symmetry. apply sortInsert_perm.
      * constructor; [lia|assumption].
Qed.

Lemma Array_sort_newest l :
  StronglySorted (fun x y => createdAt y <= createdAt x)%Z
                 (Array_sort newestFirst l).
Proof.
  induction l as [|a l IH]; cbn; [constructor|].
  now apply sortInsert_newest.
Qed.

(** X14. [filteredNotes] lists exactly the notes that match the search and
    the mood filter, each as often as it occurs, newest first; notes created
    at the same millisecond keep the order they had in [notes]. *)
Theorem filteredNotes_newest_first_matches notes searchQuery filterMood :
  let shown := filteredNotes toLowerCase notes searchQuery filterMood in
  Permutation shown
    (filter (fun n => matchesSearch toLowerCase n searchQuery
                      && matchesMood n filterMood) notes)
  /\ (forall n, In n shown
        <-> In n notes
            /\ matchesSearch toLowerCase n searchQuery = true
            /\ matchesMood n filterMood = true)
  /\ StronglySorted (fun a b => createdAt b <= createdAt a)%Z shown
  /\ forall t,
       filter (fun n => createdAt n =? t)%Z shown
       = filter (fun n => createdAt n =? t)%Z
           (filter (fun n => matchesSearch toLowerCase n searchQuery
                             && matchesMood n filterMood) notes).
Proof.
  intros shown. unfold filteredNotes in shown.
  set (matching := filter _ notes) in *.
  assert (Hperm : Permutation shown matching) by apply Array_sort_perm.
  split; [assumption|]. split; [|split].
  - intros n. split.
    + intros Hin. apply (Permutation_in _ Hperm) in Hin.
      apply filter_In in Hin as [Hin Hmatch].
      apply andb_prop in Hmatch. tauto.
    + intros (Hin & Hs & Hm). apply (Permutation_in _ (Permutation_sym Hperm)).
      apply filter_In. now rewrite Hs, Hm.
  - apply Array_sort_newest.
  - intros t. subst shown. clear Hperm. clearbody matching.
    induction matching as [|a l IH]; [reflexivity|].
    unfold Array_sort in *. cbn [fold_right]. rewrite filter_sortInsert.
    + cbn [filter]. now rewrite IH.
    + intros b Ha Hb. apply Z.eqb_eq in Ha, Hb. unfold newestFirst.
      apply Z.leb_le. lia.
Qed.

(** X15. The search through a missing field.  When lower-casing maps the
    empty string to itself, an empty search box matches a note exactly when
    it has a title, or a content, or at least one tag: a stored note that
    lacks all three is hidden although nothing is searched for. *)
Theorem empty_search_hides_notes_without_text n :
  toLowerCase "" = "" ->
  matchesSearch toLowerCase n ""
  = match title n, content n, tags n with
    | None, None, [] => false
    | _, _, _ => true
    end.
Proof.
  intros Hlower. unfold matchesSearch, fieldMatches. rewrite Hlower.
  assert (Hall : forall s, includes s "" = true).
  { intros s. destruct s; reflexivity. }
  destruct (title n); [now rewrite Hall|].
  destruct (content n); [now rewrite Hall|].
  destruct (tags n) as [|t l]; [reflexivity|].
  cbn. now rewrite Hall.
Qed.

End NoteListProperties.

Section Grouping.

Variable getMonth : Z -> Z.
Variable getFullYear : Z -> Z.

(** The day count is at most seven exactly within 7 x 24 hours, before or
    after now. *)
Lemma diffDays_week now created :
  (diffDays now created <=? 7)%Z
  = (Z.abs (now - created) <=? 604800000)%Z.
Proof.
  unfold diffDays. cbv zeta.
  change (1000 * 60 * 60 * 24)%Z with 86400000%Z.
  set (d := Z.abs (now - created)).
  pose proof (Z.div_mod (- d) 86400000 ltac:(lia)) as Hdm.
  pose proof (Z.mod_pos_bound (- d) 86400000 ltac:(lia)) as Hmod.
  destruct (Z.leb_spec (- (- d / 86400000)) 7);
    destruct (Z.leb_spec d 604800000); try reflexivity; lia.
Qed.

(** X16. [groupedNotes] splits the list three ways without losing,
    duplicating or reordering a note: 'Esta Semana' holds the notes created
    within 604 800 000 ms of now, in the past or in the future; 'Este Mes'
    the others of the current calendar month and year; 'Antigos' the rest;
    each group in the order of the list. *)
Theorem groupedNotes_partition now filtered :
  let groups := groupedNotes getMonth getFullYear now filtered in
  estaSemana groups = filter (withinWeek now) filtered
  /\ esteMes groups
     = filter (fun n => negb (withinWeek now n) && sameMonth getMonth getFullYear now n) filtered
  /\ antigos groups
     = filter (fun n => negb (withinWeek now n) && negb (sameMonth getMonth getFullYear now n))
              filtered
  /\ Permutation (estaSemana groups ++ esteMes groups ++ antigos groups)
                 filtered.
Proof.
  intros groups.
  assert (Hgen : forall l g,
    let r := fold_left
      (fun groups n =>
         if (diffDays now (createdAt n) <=? 7)%Z then
           {| estaSemana := estaSemana groups ++ [n];
              esteMes := esteMes groups; antigos := antigos groups |}
         else if (getMonth (createdAt n) =? getMonth now)%Z
                 && (getFullYear (createdAt n) =? getFullYear now)%Z then
           {| estaSemana := estaSemana groups;
              esteMes := esteMes groups ++ [n]; antigos := antigos groups |}
         else
           {| estaSemana := estaSemana groups; esteMes := esteMes groups;
              antigos := antigos groups ++ [n] |}) l g in
    estaSemana r = estaSemana g ++ filter (withinWeek now) l
    /\ esteMes r
       = esteMes g
         ++ filter (fun n => negb (withinWeek now n) && sameMonth getMonth getFullYear now n) l
    /\ antigos r
       = antigos g
         ++ filter (fun n => negb (withinWeek now n)
                             && negb (sameMonth getMonth getFullYear now n)) l).
  { induction l as [|n l IH]; intros g; cbv zeta.
    - cbn. now rewrite !app_nil_r.
    - cbn [fold_left filter]. rewrite diffDays_week.
      fold (withinWeek now n). fold (sameMonth getMonth getFullYear now n).
      destruct (withinWeek now n); [|destruct (sameMonth getMonth getFullYear now n)];
        cbn [negb andb];
        match goal with
        | |- context [fold_left _ l ?g'] =>
            destruct (IH g') as (-> & -> & ->)
        end;
        cbn [estaSemana esteMes antigos]; rewrite <- ?app_assoc; auto. }
  destruct (Hgen filtered {| estaSemana := []; esteMes := []; antigos := [] |})
    as (Hw & Hm & Ho).
  subst groups. unfold groupedNotes. rewrite Hw, Hm, Ho.
  cbn [estaSemana esteMes antigos app].
  repeat split; try reflexivity. clear.
  induction filtered as [|n l IH]; [reflexivity|].
  cbn [filter].
  destruct (withinWeek now n); [|destruct (sameMonth getMonth getFullYear now n)]; cbn [negb andb].
  - cbn. now constructor.
  - cbn [app]. rewrite <- Permutation_middle. now constructor.
  - rewrite app_assoc. cbn [app]. rewrite <- Permutation_middle, <- app_assoc.
    now constructor.
Qed.

End Grouping.

(** * The local note list *)

Section LocalNotes.

Variable saved : DevotionalNote.

Lemma find_replace l :
  find (fun n => String.eqb (id n) (id saved)) l <> None ->
  find (fun n => String.eqb (id n) (id saved))
       (map (fun n => if String.eqb (id n) (id saved) then saved else n) l)
  = Some saved.
Proof.
  induction l as [|a l IH]; cbn; [congruence|].
  destruct (String.eqb (id a) (id saved)) eqn:Ha.
  - intros _. now rewrite String.eqb_refl.
  - intros Hfind. now rewrite Ha, IH.
Qed.

Lemma others_replace l :
  filter (fun n => negb (String.eqb (id n) (id saved)))
         (map (fun n => if String.eqb (id n) (id saved) then saved else n) l)
  = filter (fun n => negb (String.eqb (id n) (id saved))) l.
Proof.
  induction l as [|a l IH]; cbn; [reflexivity|].
  destruct (String.eqb (id a) (id saved)) eqn:Ha; cbn.
  - now rewrite String.eqb_refl.
  - now rewrite Ha, IH.
Qed.

Lemma ids_replace l :
  map id (map (fun n => if String.eqb (id n) (id saved) then saved else n) l)
  = map id l.
Proof.
  induction l as [|a l IH]; cbn; [reflexivity|].
  destruct (String.eqb (id a) (id saved)) eqn:Ha; cbn; rewrite IH;
    [|reflexivity].
  apply String.eqb_eq in Ha. now rewrite Ha.
Qed.

Lemma find_none_ids l :
  find (fun n => String.eqb (id n) (id saved)) l = None <->
  ~ In (id saved) (map id l).
Proof.
  induction l as [|a l IH]; cbn; [tauto|].
  destruct (String.eqb (id a) (id saved)) eqn:Ha.
  - apply String.eqb_eq in Ha. split; [discriminate|]. intros H. tauto.
  - apply String.eqb_neq in Ha. rewrite IH. tauto.
Qed.

End LocalNotes.

(** X17. Saving a note in the local list stores it under its id: looking the
    id up afterwards finds the saved note, every note of the list with that
    id is the saved one, the notes with other ids keep their places, the view
    is not changed, and saving the same note again changes nothing. *)
Theorem handleSaveNote_stores_the_note saved app :
  let app' := handleSaveNote saved app in
  find (fun n => String.eqb (id n) (id saved)) (notes app') = Some saved
  /\ (forall n, In n (notes app') -> id n = id saved -> n = saved)
  /\ filter (fun n => negb (String.eqb (id n) (id saved))) (notes app')
     = filter (fun n => negb (String.eqb (id n) (id saved))) (notes app)
  /\ viewMode app' = viewMode app
  /\ currentNote app' = currentNote app
  /\ handleSaveNote saved app' = app'.
Proof.
  intros app'.
  assert (Hfind : find (fun n => String.eqb (id n) (id saved)) (notes app')
                  = Some saved).
  { subst app'. unfold handleSaveNote. cbn [notes].
    destruct (find _ (notes app)) eqn:Hf.
    - apply find_replace. congruence.
    - cbn. now rewrite String.eqb_refl. }
  split; [assumption|]. split; [|split; [|split; [|split]]].
  - subst app'. unfold handleSaveNote. cbn [notes]. intros n Hin Hid.
    destruct (find _ (notes app)) eqn:Hf.
    + apply in_map_iff in Hin as (m & Hm & _).
      destruct (String.eqb (id m) (id saved)) eqn:Hms; [congruence|].
      apply String.eqb_neq in Hms. congruence.
    + destruct Hin as [<- | Hin]; [reflexivity|].
      apply find_none_ids in Hf. exfalso. apply Hf.
      rewrite <- Hid. now apply in_map.
  - subst app'. unfold handleSaveNote. cbn [notes].
    destruct (find _ (notes app)) eqn:Hf.
    + apply others_replace.
    + cbn. now rewrite String.eqb_refl.
  - reflexivity.
  - reflexivity.
  - unfold handleSaveNote at 1. rewrite Hfind. subst app'.
    unfold handleSaveNote. cbn [notes viewMode currentNote]. f_equal.
    destruct (find _ (notes app)) eqn:Hf.
    + rewrite map_map. apply map_ext. intros n.
      destruct (String.eqb (id n) (id saved)) eqn:Hn;
        [now rewrite String.eqb_refl | now rewrite Hn].
    + cbn. rewrite String.eqb_refl. f_equal.
      apply find_none_ids in Hf.
      induction (notes app) as [|a l IH]; [reflexivity|].
      cbn. destruct (String.eqb (id a) (id saved)) eqn:Ha.
      * apply String.eqb_eq in Ha. exfalso. apply Hf. cbn. now left.
      * f_equal. apply IH. intros Hin. apply Hf. cbn. now right.
Qed.

(** X18. Saving keeps the ids of the local list distinct: when no two notes
    share an id, none do after a save, and the list grows by one note only
    when the id is new. *)
Theorem handleSaveNote_keeps_ids_distinct saved app :
  NoDup (map id (notes app)) ->
  let app' := handleSaveNote saved app in
  NoDup (map id (notes app'))
  /\ List.length (notes app')
     = if existsb (fun n => String.eqb (id n) (id saved)) (notes app)
       then List.length (notes app)
       else S (List.length (notes app)).
Proof.
  intros Hnodup app'. subst app'. unfold handleSaveNote. cbn [notes].
  destruct (find _ (notes app)) eqn:Hf.
  - rewrite ids_replace, length_map. split; [assumption|].
    apply find_some in Hf as [Hin Hid].
    replace (existsb _ (notes app)) with true; [reflexivity|].
    symmetry. apply existsb_exists. eauto.
  - split.
    + cbn. constructor; [|assumption]. now apply find_none_ids.
    + replace (existsb _ (notes app)) with false; [reflexivity|].
      symmetry. apply not_true_is_false. intros Hex.
      apply existsb_exists in Hex as (n & Hin & Hid).
      apply (find_none _ _ Hf) in Hin. congruence.
Qed.

(** X19. Deleting from the local list, once confirmed, removes exactly the
    notes with that id and keeps the others in order; an open note with that
    id is closed and the view returns to the list; a declined confirmation
    changes nothing; and deleting a note that was just saved under a new id
    gives back the list as it was. *)
Theorem handleDeleteNote_removes_the_note noteId app :
  let app' := handleDeleteNote true noteId app in
  notes app' = filter (fun n => negb (String.eqb (id n) noteId)) (notes app)
  /\ (forall n, In n (notes app') <-> In n (notes app) /\ id n <> noteId)
  /\ (forall current, currentNote app = Some current -> id current = noteId ->
        viewMode app' = LIST /\ currentNote app' = None)
  /\ ((forall current, currentNote app = Some current -> id current <> noteId) ->
        viewMode app' = viewMode app /\ currentNote app' = currentNote app)
  /\ handleDeleteNote false noteId app = app
  /\ forall saved,
       id saved = noteId -> ~ In noteId (map id (notes app)) ->
       notes (handleDeleteNote true noteId (handleSaveNote saved app))
       = notes app.
Proof.
  intros app'.
  assert (Hnotes : forall a,
            notes (handleDeleteNote true noteId a)
            = filter (fun n => negb (String.eqb (id n) noteId)) (notes a)).
  { intros a. unfold handleDeleteNote.
    destruct (currentNote a) as [current|]; [|reflexivity].
    now destruct (String.eqb (id current) noteId). }
  split; [apply Hnotes|]. split; [|split; [|split; [|split]]].
  - intros n. subst app'. rewrite Hnotes, filter_In.
    destruct (String.eqb (id n) noteId) eqn:Hn; cbn.
    + apply String.eqb_eq in Hn. split; [intros [_ H]; discriminate|tauto].
    + apply String.eqb_neq in Hn. tauto.
  - intros current Hcur Hid. subst app'. unfold handleDeleteNote.
    rewrite Hcur, Hid, String.eqb_refl. auto.
  - intros Hother. subst app'. unfold handleDeleteNote.
    destruct (currentNote app) as [current|] eqn:Hcur; [|auto].
    specialize (Hother current eq_refl). apply String.eqb_neq in Hother.
    rewrite Hother. cbn. auto.
  - reflexivity.
  - intros saved Hid Hnew. rewrite Hnotes. unfold handleSaveNote. cbn [notes].
    rewrite <- Hid in Hnew. apply find_none_ids in Hnew. rewrite Hnew. cbn.
    rewrite Hid, String.eqb_refl. cbn.
    apply find_none_ids in Hnew. rewrite Hid in Hnew.
    induction (notes app) as [|a l IH]; [reflexivity|].
    cbn. destruct (String.eqb (id a) noteId) eqn:Ha.
    + apply String.eqb_eq in Ha. exfalso. apply Hnew. cbn. now left.
    + cbn. f_equal. apply IH. intros Hin. apply Hnew. cbn. now right.
Qed.

(** * The further properties at concrete inputs *)

Lemma touch_without_points_witness :
  let s := mounted true 2%float in
  let s1 := step samplePng editable s (TouchStart []) in
  raises samplePng editable s (TouchStart []) = true
  /\ session s1 = DRAWING
  /\ canvasRef s1 = Some (mountedCanvas true 2%float)
  /\ emitted s s1 []
  /\ raises samplePng editable s1 (TouchMove []) = true
  /\ step samplePng editable s1 (TouchMove []) = s1
  /\ forall m, is_move m = true -> well_formed m = true ->
       exists canvas' op,
         canvasRef (step samplePng editable s1 m) = Some canvas'
         /\ painted (mountedCanvas true 2%float) canvas' [op]
         /\ rendered_with "#000000" 1%float op.
Proof.
  apply (touch_without_points samplePng editable (mounted true 2%float)
           (mountedCanvas true 2%float) sampleContext);
    reflexivity.
Defined.

Lemma stroke_style_fixed_at_down_witness :
  exists canvas' ops,
    canvasRef (run samplePng editable (sampleDown :: movesAndButtons)
                   (mounted true 2%float)) = Some canvas'
    /\ painted (mountedCanvas true 2%float) canvas' ops
    /\ List.length ops = 2%nat
    /\ Forall (rendered_with "#1e1b4b" 3%float) ops.
Proof.
  apply (stroke_style_fixed_at_down samplePng editable (mounted true 2%float)
           (mountedCanvas true 2%float) sampleContext sampleDown
           movesAndButtons);
    reflexivity.
Defined.

Lemma one_call_per_finalize_or_clear_witness :
  exists calls,
    emitted (mounted true 2%float)
            (run samplePng editable mixedRun (mounted true 2%float)) calls
    /\ List.length calls = 3%nat.
Proof.
  apply (one_call_per_finalize_or_clear samplePng editable mixedRun
           (mounted true 2%float));
    reflexivity.
Defined.

Lemma mount_effect_resets_canvas_witness :
  let s' := step samplePng editable midStroke EffectRun in
  exists canvas',
    canvasRef s' = Some canvas'
    /\ bitmap canvas' = []
    /\ session s' = session midStroke
    /\ tool_color s' = tool_color midStroke
    /\ tool_width s' = tool_width midStroke
    /\ emitted midStroke s' []
    /\ (forall ctx, context2d (canvasOf midStroke) = Some ctx ->
        exists ctx',
          context2d canvas' = Some ctx'
          /\ path ctx' = []
          /\ strokeStyle ctx' = "#000000" /\ ctx_lineWidth ctx' = 1%float
          /\ lineCap ctx' = "round" /\ lineJoin ctx' = "round")
    /\ (forall ctx m,
        context2d (canvasOf midStroke) = Some ctx ->
        readOnly editable = false ->
        session midStroke = DRAWING ->
        is_move m = true -> well_formed m = true ->
        exists canvas'' op,
          canvasRef (step samplePng editable s' m) = Some canvas''
          /\ bitmap canvas'' = [op]
          /\ rendered_with "#000000" 1%float op).
Proof.
  apply (mount_effect_resets_canvas samplePng editable midStroke
           (canvasOf midStroke) sampleContainer);
    vm_compute; reflexivity.
Defined.

Lemma initial_image_painted_over_strokes_witness :
  let s := firstRender (Some (newCanvas sampleRect true))
                       (Some sampleContainer) 2%float in
  let s1 := run samplePng withImage
                (EffectRun :: sampleDown :: sampleMoves ++ [MouseUp]) s in
  let s2 := step samplePng withImage s1 (ImageLoad 0) in
  pendingImages s1 = ["data:image/png;base64,iVBORw0KGgo="]
  /\ pendingImages s2 = []
  /\ exists c1 c2 tr,
       canvasRef s1 = Some c1 /\ canvasRef s2 = Some c2
       /\ bitmap c2
          = bitmap c1
            ++ [DrawImage "data:image/png;base64,iVBORw0KGgo="
                  0%float 0%float 100%float 50%float tr].
Proof.
  apply (initial_image_painted_over_strokes samplePng withImage
           (firstRender (Some (newCanvas sampleRect true))
                        (Some sampleContainer) 2%float)
           (newCanvas sampleRect true) CanvasAPI.defaultContext
           sampleContainer "data:image/png;base64,iVBORw0KGgo="
           (sampleDown :: sampleMoves ++ [MouseUp]));
    try reflexivity; discriminate.
Defined.

Lemma without_initial_image_nothing_is_decoded_witness :
  pendingImages (run samplePng editable mixedRun (mounted true 2%float)) = []
  /\ forall op,
       In op (surfaceOps (run samplePng editable mixedRun
                              (mounted true 2%float))) ->
       is_DrawImage op = true ->
       In op (surfaceOps (mounted true 2%float)).
Proof.
  apply (without_initial_image_nothing_is_decoded samplePng editable mixedRun
           (mounted true 2%float));
    [left|]; reflexivity.
Defined.

Lemma readOnly_surface_is_never_inked_witness :
  let s := firstRender (Some (newCanvas sampleRect true))
                       (Some sampleContainer) 2%float in
  let s' := run samplePng viewOnly mixedRun s in
  session s' = session s
  /\ tool_color s' = tool_color s /\ tool_width s' = tool_width s
  /\ emitted s s' []
  /\ forall op, In op (surfaceOps s') ->
       In op (surfaceOps s) \/ is_DrawImage op = true.
Proof.
  apply (readOnly_surface_is_never_inked samplePng viewOnly mixedRun);
    reflexivity.
Defined.

Lemma colour_button_selects_pen_witness :
  let s1 := step samplePng editable erasing (ClickSwatch Blue600) in
  color s1 = "#2563eb"
  /\ isEraser s1 = false
  /\ session s1 = session erasing
  /\ exists canvas' ops,
       canvasRef (run samplePng editable (sampleDown :: sampleMoves) s1)
       = Some canvas'
       /\ painted (mountedCanvas true 2%float) canvas' ops
       /\ List.length ops = 2%nat
       /\ Forall (rendered_with "#2563eb" 3%float) ops.
Proof.
  apply (colour_button_selects_pen samplePng editable redThenEraser
           (Some (newCanvas sampleRect true)) (Some sampleContainer)
           2%float Blue600 (mountedCanvas true 2%float) sampleContext
           sampleDown sampleMoves);
    reflexivity.
Defined.

Lemma each_move_repaints_the_whole_path_witness :
  exists canvas',
    canvasRef (run samplePng editable (sampleDown :: sampleMoves)
                   (mounted true 2%float)) = Some canvas'
    /\ painted (mountedCanvas true 2%float) canvas'
         [Stroke [[ {| x := 71%float; y := 51%float |};
                    {| x := 70%float; y := 50%float |} ]]
                 "#1e1b4b" 3%float "round" "round" (2%float, 2%float);
          Stroke [[ {| x := 75%float; y := 60%float |};
                    {| x := 71%float; y := 51%float |};
                    {| x := 70%float; y := 50%float |} ]]
                 "#1e1b4b" 3%float "round" "round" (2%float, 2%float)].
Proof.
  apply (each_move_repaints_the_whole_path samplePng editable
           (mounted true 2%float) (mountedCanvas true 2%float) sampleContext
           sampleDown sampleMoves
           {| x := 70%float; y := 50%float |}
           [ {| x := 71%float; y := 51%float |};
             {| x := 75%float; y := 60%float |} ]);
    reflexivity.
Defined.

Lemma editor_stroke_reloads_surface_witness :
  let url := toDataURL samplePng (canvasOf midStroke) in
  let ed1 := surfaceEvent samplePng 1700000001000 MouseUp sampleEditor in
  let ed2 := surfaceEvent samplePng 1700000002000
               (ImageLoad (List.length (pendingImages midStroke))) ed1 in
  drawingData (note ed1) = Some url
  /\ updatedAt (note ed1) = 1700000001000%Z
  /\ (drawingData (note sampleEditor) = Some url ->
      exists c1,
        surface ed1 = Some c1 /\ canvasRef c1 = Some (canvasOf midStroke))
  /\ (drawingData (note sampleEditor) <> Some url ->
      (exists c1,
         surface ed1 = Some c1
         /\ surfaceOps c1 = []
         /\ pendingImages c1 = pendingImages midStroke ++ [url]
         /\ session c1 = IDLE
         /\ emitted midStroke c1 [url])
      /\ note ed2 = note ed1
      /\ exists c2 tr,
           surface ed2 = Some c2
           /\ surfaceOps c2
              = [DrawImage url 0%float 0%float (clientWidth sampleContainer)
                   (clientHeight sampleContainer) tr]
           /\ pendingImages c2 = pendingImages midStroke).
Proof.
  eapply (editor_stroke_reloads_surface samplePng 1700000001000
            1700000002000 sampleEditor midStroke (canvasOf midStroke) _
            sampleContainer MouseUp);
    try (vm_compute; reflexivity).
  now left.
Defined.

Lemma editor_clear_blanks_surface_witness :
  let ed1 := surfaceEvent samplePng 1700000001000 ClickClear sampleEditor in
  drawingData (note ed1) = Some ""
  /\ updatedAt (note ed1) = 1700000001000%Z
  /\ (drawingData (note sampleEditor) <> Some "" ->
      exists c1,
        surface ed1 = Some c1
        /\ surfaceOps c1 = []
        /\ pendingImages c1 = pendingImages midStroke
        /\ session c1 = session midStroke
        /\ emitted midStroke c1 [""])
  /\ (drawingData (note sampleEditor) = Some "" ->
      surface ed1
      = Some (step samplePng (surfaceProps (note sampleEditor)) midStroke
                   ClickClear)).
Proof.
  eapply (editor_clear_blanks_surface samplePng 1700000001000 sampleEditor
            midStroke (canvasOf midStroke) _ sampleContainer);
    vm_compute; reflexivity.
Defined.

Lemma empty_search_hides_notes_without_text_witness :
  matchesSearch (fun s => s) bareNote "" = false
  /\ matchesSearch (fun s => s) (sampleNote "n1" 1700000000000) "" = true.
Proof.
  split.
  - apply (empty_search_hides_notes_without_text (fun s => s) bareNote).
    reflexivity.
  - apply (empty_search_hides_notes_without_text (fun s => s)
             (sampleNote "n1" 1700000000000)).
    reflexivity.
Defined.

Lemma handleSaveNote_keeps_ids_distinct_witness :
  let saved := sampleNote "n1" 1700000000005 in
  let app' := handleSaveNote saved sampleApp in
  NoDup (map id (notes app'))
  /\ List.length (notes app')
     = if existsb (fun n => String.eqb (id n) (id saved)) (notes sampleApp)
       then List.length (notes sampleApp)
       else S (List.length (notes sampleApp)).
Proof.
  apply (handleSaveNote_keeps_ids_distinct (sampleNote "n1" 1700000000005)
           sampleApp).
  cbn. repeat constructor; cbn; intuition discriminate.
Defined.
